(** * ArtTable: selection persistence and bulk selection

    A shallow embedding of the state and event handlers of the [ArtTable]
    component (src/components/ArtTable.tsx): the persisted selection, the
    reconciliation of the visible page against it, and the "select the first
    N rows" request with its page-by-page fetch loop.

    React state is modelled by an explicit [State] record; a handler is a
    function from the state it closes over to the state after its setters
    have been applied, together with the list of observable events (remote
    requests, toasts, console output) it produced.  Handlers run one at a
    time, as the component's event handlers do. *)

From Stdlib Require Import ZArith String.
From stdpp Require Import gmap list pretty.

Local Open Scope Z_scope.
#[local] Set Warnings "-clear-no-such-hyp".

(** ** Data model *)

(** [interface Artwork].  JavaScript numbers that only ever hold integers
    (identities, dates, page numbers, counts) are modelled by [Z]. *)
Record Artwork := mkArtwork {
  id : Z;
  title : string;
  place_of_origin : string;
  artist_display : string;
  inscriptions : string;
  date_start : Z;
  date_end : Z;
}.

#[global] Instance Artwork_eq_dec : EqDecision Artwork.
Proof. solve_decision. Defined.

(** The body of a page response: [data.data] and [data.pagination]. *)
Record Pagination := mkPagination {
  current_page : Z;
  total_pages : Z;
  total : Z;
}.

Record Response := mkResponse {
  data : list Artwork;
  pagination : Pagination;
}.

(** The remote page source, as seen by one handler run: the answer to
    [GET /artworks?page=p].  [None] stands for a request whose [fetch] or
    [res.json()] rejects.  A run of the fetch loop asks for each page number
    at most once, so a function of the page number describes every possible
    sequence of answers within one run; different runs may be given
    different sources. *)
Definition Server := Z → option Response.

(** The component's [useState] cells. *)
Record State := mkState {
  artworks : list Artwork;
  loading : bool;
  totalRecords : Z;
  page : Z;
  selectedRows : list Artwork;
  persistedSelection : gmap Z Artwork;
  selectCount : Z;
  allFetchedArtworks : list Artwork;
  overlayLoading : bool;
}.

(** Observable effects of a handler. *)
Inductive Event :=
  | Fetch (pageNumber : Z)
  | ConsoleError (msg : string)
  | ToastShow (severity summary detail : string)
  | OverlayHide.

#[global] Instance Event_eq_dec : EqDecision Event.
Proof. solve_decision. Defined.

Definition initialState : State :=
  {| artworks := []; loading := false; totalRecords := 0; page := 1;
     selectedRows := []; persistedSelection := ∅; selectCount := 0;
     allFetchedArtworks := []; overlayLoading := false |}.

(** State setters ([setArtworks], [setLoading], ...). *)
Definition setArtworks (v : list Artwork) (st : State) : State :=
  {| artworks := v; loading := loading st; totalRecords := totalRecords st;
     page := page st; selectedRows := selectedRows st;
     persistedSelection := persistedSelection st;
     selectCount := selectCount st;
     allFetchedArtworks := allFetchedArtworks st;
     overlayLoading := overlayLoading st |}.

Definition setLoading (v : bool) (st : State) : State :=
  {| artworks := artworks st; loading := v; totalRecords := totalRecords st;
     page := page st; selectedRows := selectedRows st;
     persistedSelection := persistedSelection st;
     selectCount := selectCount st;
     allFetchedArtworks := allFetchedArtworks st;
     overlayLoading := overlayLoading st |}.

Definition setTotalRecords (v : Z) (st : State) : State :=
  {| artworks := artworks st; loading := loading st; totalRecords := v;
     page := page st; selectedRows := selectedRows st;
     persistedSelection := persistedSelection st;
     selectCount := selectCount st;
     allFetchedArtworks := allFetchedArtworks st;
     overlayLoading := overlayLoading st |}.

Definition setPage (v : Z) (st : State) : State :=
  {| artworks := artworks st; loading := loading st;
     totalRecords := totalRecords st;
     page := v; selectedRows := selectedRows st;
     persistedSelection := persistedSelection st;
     selectCount := selectCount st;
     allFetchedArtworks := allFetchedArtworks st;
     overlayLoading := overlayLoading st |}.

Definition setSelectedRows (v : list Artwork) (st : State) : State :=
  {| artworks := artworks st; loading := loading st;
     totalRecords := totalRecords st;
     page := page st; selectedRows := v;
     persistedSelection := persistedSelection st;
     selectCount := selectCount st;
     allFetchedArtworks := allFetchedArtworks st;
     overlayLoading := overlayLoading st |}.

Definition setPersistedSelection (v : gmap Z Artwork) (st : State) : State :=
  {| artworks := artworks st; loading := loading st;
     totalRecords := totalRecords st;
     page := page st; selectedRows := selectedRows st;
     persistedSelection := v;
     selectCount := selectCount st;
     allFetchedArtworks := allFetchedArtworks st;
     overlayLoading := overlayLoading st |}.

Definition setSelectCount (v : Z) (st : State) : State :=
  {| artworks := artworks st; loading := loading st;
     totalRecords := totalRecords st;
     page := page st; selectedRows := selectedRows st;
     persistedSelection := persistedSelection st;
     selectCount := v;
     allFetchedArtworks := allFetchedArtworks st;
     overlayLoading := overlayLoading st |}.

Definition setAllFetchedArtworks (v : list Artwork) (st : State) : State :=
  {| artworks := artworks st; loading := loading st;
     totalRecords := totalRecords st;
     page := page st; selectedRows := selectedRows st;
     persistedSelection := persistedSelection st;
     selectCount := selectCount st;
     allFetchedArtworks := v;
     overlayLoading := overlayLoading st |}.

Definition setOverlayLoading (v : bool) (st : State) : State :=
  {| artworks := artworks st; loading := loading st;
     totalRecords := totalRecords st;
     page := page st; selectedRows := selectedRows st;
     persistedSelection := persistedSelection st;
     selectCount := selectCount st;
     allFetchedArtworks := allFetchedArtworks st;
     overlayLoading := v |}.

(** ** The persisted selection as a keyed object *)

(** [l.forEach((art) => delete updatedPersisted[art.id])] *)
Definition deleteAll (l : list Artwork) (m : gmap Z Artwork) : gmap Z Artwork :=
  foldl (λ acc art, delete (id art) acc) m l.

(** [l.forEach((art) => { updatedPersisted[art.id] = art })] *)
Definition putAll (l : list Artwork) (m : gmap Z Artwork) : gmap Z Artwork :=
  foldl (λ acc art, <[id art := art]> acc) m l.

(** [persisted[a.id]] used as a condition: an [Artwork] object is always
    truthy, so the test is whether the key is present. *)
Definition isPersisted (m : gmap Z Artwork) (a : Artwork) : bool :=
  bool_decide (is_Some (m !! id a)).

(** [artworks.filter((a) => persisted[a.id])] *)
Definition currentPageSelected (arts : list Artwork) (m : gmap Z Artwork)
  : list Artwork :=
  List.filter (isPersisted m) arts.

(** ** Single page load *)

(** [fetchArtworks]: on a good answer the page's rows and the total count
    are stored; on a rejected request the error is logged and nothing but
    the loading flag is touched. *)
Definition fetchArtworks (server : Server) (pageNumber : Z) (st : State)
  : State * list Event :=
  match server pageNumber with
  | Some res =>
      (setLoading false
         (setTotalRecords (total (pagination res))
            (setArtworks (data res) (setLoading true st))),
       [Fetch pageNumber])
  | None =>
      (setLoading false (setLoading true st),
       [Fetch pageNumber; ConsoleError "Error fetching artworks:"])
  end.

(** The effect keyed on [artworks]: the checked rows are the rows of the
    current page whose key is in the persisted selection. *)
Definition syncSelectedRows (st : State) : State :=
  setSelectedRows (currentPageSelected (artworks st) (persistedSelection st)) st.

(** A page load as the component performs it: [fetchArtworks], followed by
    the [artworks] effect when [setArtworks] ran. *)
Definition loadPage (server : Server) (pageNumber : Z) (st : State)
  : State * list Event :=
  let '(st1, evs) := fetchArtworks server pageNumber st in
  match server pageNumber with
  | Some _ => (syncSelectedRows st1, evs)
  | None => (st1, evs)
  end.

(** [onPageChange]: [setPage(event.page + 1)]; the effect keyed on [page]
    then loads that page (React skips the effect when the value is the
    same). *)
Definition onPageChange (server : Server) (eventPage : Z) (st : State)
  : State * list Event :=
  if decide (page st = eventPage + 1) then (st, [])
  else loadPage server (eventPage + 1) (setPage (eventPage + 1) st).

(** ** Manual selection on the current page *)

Definition onSelectionChange (newSelection : list Artwork) (st : State)
  : State :=
  let updatedPersisted :=
    putAll newSelection (deleteAll (artworks st) (persistedSelection st)) in
  setSelectedRows newSelection (setPersistedSelection updatedPersisted st).

(** ** The bulk fetch loop *)

(** How the [while] loop of [fetchAllArtworks] ended.  [Threw] records the
    local [fetched] array at the moment the request rejected, so that what
    the [catch] block does with it can be stated; [Unfinished] is the model
    running out of fuel. *)
Inductive LoopOutcome :=
  | Finished (fetched : list Artwork)
  | Threw (fetched : list Artwork)
  | Unfinished.

(** [uniqueNew.forEach((item) => seenIds.add(item.id))] *)
Definition addIds (l : list Artwork) (seenIds : gset Z) : gset Z :=
  foldl (λ s item, {[id item]} ∪ s) seenIds l.

(** One unit of fuel is one evaluation of the loop condition.  The second
    component is the list of page numbers requested, in order. *)
Fixpoint fetchLoop (server : Server) (maxNeeded : Z) (fuel : nat)
    (fetched : list Artwork) (seenIds : gset Z) (currentPage : Z)
  : LoopOutcome * list Z :=
  match fuel with
  | O => (Unfinished, [])
  | S fuel' =>
      if decide (Z.of_nat (length fetched) < maxNeeded) then
        match server currentPage with
        | None => (Threw fetched, [currentPage])
        | Some res =>
            let uniqueNew :=
              filter (λ item, id item ∉ seenIds) (data res) in
            let seenIds' := addIds uniqueNew seenIds in
            let fetched' := fetched ++ uniqueNew in
            if decide (current_page (pagination res)
                       >= total_pages (pagination res))
            then (Finished fetched', [currentPage])
            else
              let '(out, reqs) :=
                fetchLoop server maxNeeded fuel' fetched' seenIds'
                  (currentPage + 1) in
              (out, currentPage :: reqs)
        end
      else (Finished fetched, [])
  end.

(** [fetchAllArtworks]: returns the array handed back to the caller, the
    state after the setters, and the events.  [None] only when the model's
    fuel does not suffice. *)
Definition fetchAllArtworks (server : Server) (maxNeeded : Z) (fuel : nat)
    (st : State) : option (list Artwork * State * list Event) :=
  match fetchLoop server maxNeeded fuel [] ∅ 1 with
  | (Finished fetched, reqs) =>
      Some (fetched,
            setOverlayLoading false
              (setAllFetchedArtworks fetched (setOverlayLoading true st)),
            Fetch <$> reqs)
  | (Threw _, reqs) =>
      Some ([],
            setOverlayLoading false (setOverlayLoading true st),
            (Fetch <$> reqs) ++ [ConsoleError "Error fetching all artworks:"])
  | (Unfinished, _) => None
  end.

(** ** Bulk select *)

Definition invalidNumberToast : Event :=
  ToastShow "warn" "Invalid Number" "Please enter a positive number".

Definition selectionUpdatedToast (m : gmap Z Artwork) : Event :=
  ToastShow "success" "Selection Updated"
    ("Selected top " +:+ pretty (size m) +:+ " rows (global)").

(** [let allData = allFetchedArtworks; if (allData.length < selectCount)
    allData = await fetchAllArtworks(selectCount)]: the array the handler
    goes on to slice, with the state and events of obtaining it. *)
Definition allDataFor (server : Server) (fuel : nat) (st : State)
  : option (list Artwork * State * list Event) :=
  if decide (Z.of_nat (length (allFetchedArtworks st)) < selectCount st)
  then fetchAllArtworks server (selectCount st) fuel st
  else Some (allFetchedArtworks st, st, []).

(** [handleSelectCount], reading the count from [selectCount].  After the
    [await] the handler still uses the [persistedSelection] and [artworks]
    it closed over. *)
Definition handleSelectCount (server : Server) (fuel : nat) (st : State)
  : option (State * list Event) :=
  if decide (selectCount st <= 0) then Some (st, [invalidNumberToast])
  else
    match allDataFor server fuel st with
    | None => None
    | Some (allData, st1, evs) =>
        let rowsToSelect := take (Z.to_nat (selectCount st)) allData in
        let updatedPersisted := putAll rowsToSelect (persistedSelection st) in
        Some (setSelectedRows
                (currentPageSelected (artworks st) updatedPersisted)
                (setPersistedSelection updatedPersisted st1),
              evs ++ [OverlayHide; selectionUpdatedToast updatedPersisted])
    end.

(** The bulk-select request as the user issues it: type [n] into the
    number input ([setSelectCount(e.value || 0)]), then press Submit. *)
Definition bulkSelect (server : Server) (fuel : nat) (n : Z) (st : State)
  : option (State * list Event) :=
  handleSelectCount server fuel (setSelectCount n st).

(** ** Definitions used to state the properties *)

(** The entry found under [k] after [putAll l]: the last row of [l] with
    that key, else what was there before. *)
Definition lastWith (k : Z) (l : list Artwork) (o : option Artwork)
  : option Artwork :=
  foldl (λ acc a, if decide (id a = k) then Some a else acc) o l.

(** The rows a run received, page after page: the [data] of the answer to
    each request (a rejected request delivers nothing). *)
Definition received (server : Server) (reqs : list Z) : list Artwork :=
  concat ((λ p, from_option data [] (server p)) <$> reqs).

(** Keep, in order, the first row to arrive under each key not in [seen]. *)
Fixpoint firstArrivals (seen : gset Z) (l : list Artwork) : list Artwork :=
  match l with
  | [] => []
  | a :: l' =>
      if decide (id a ∈ seen) then firstArrivals seen l'
      else a :: firstArrivals ({[id a]} ∪ seen) l'
  end.

(** No page of the run lists the same key twice. *)
Definition pagesDistinct (server : Server) (reqs : list Z) : Prop :=
  ∀ p res, p ∈ reqs → server p = Some res → NoDup (id <$> data res).

(** The answer to the request for page [p] ends the loop: the request
    rejects, or the page says it is the last one. *)
Definition stopsAt (server : Server) (p : Z) : Prop :=
  match server p with
  | None => True
  | Some res =>
      current_page (pagination res) >= total_pages (pagination res)
  end.

(** The three ways [allDataFor] hands an array to the handler. *)
Inductive AllData (server : Server) (fuel : nat) (st : State)
  : list Artwork → State → list Event → Prop :=
  | FromCache :
      ¬ Z.of_nat (length (allFetchedArtworks st)) < selectCount st →
      AllData server fuel st (allFetchedArtworks st) st []
  | Refetched r reqs :
      Z.of_nat (length (allFetchedArtworks st)) < selectCount st →
      fetchLoop server (selectCount st) fuel [] ∅ 1 = (Finished r, reqs) →
      AllData server fuel st r
        (setOverlayLoading false
           (setAllFetchedArtworks r (setOverlayLoading true st)))
        (Fetch <$> reqs)
  | FetchFailed acc reqs :
      Z.of_nat (length (allFetchedArtworks st)) < selectCount st →
      fetchLoop server (selectCount st) fuel [] ∅ 1 = (Threw acc, reqs) →
      AllData server fuel st []
        (setOverlayLoading false (setOverlayLoading true st))
        ((Fetch <$> reqs) ++ [ConsoleError "Error fetching all artworks:"]).

(** ** Sessions *)

(** What the user can do, one action at a time. *)
Inductive Action :=
  | BulkSelect (n : Z) (fuel : nat)
  | SelectionChange (newSelection : list Artwork)
  | PageChange (eventPage : Z).

Definition act (server : Server) (a : Action) (st : State)
  : option (State * list Event) :=
  match a with
  | BulkSelect n fuel => bulkSelect server fuel n st
  | SelectionChange newSelection =>
      Some (onSelectionChange newSelection st, [])
  | PageChange eventPage => Some (onPageChange server eventPage st)
  end.

(** A session against a source that answers each page the same way every
    time. *)
Fixpoint session (server : Server) (acts : list Action) (st : State)
  : option State :=
  match acts with
  | [] => Some st
  | a :: acts' =>
      match act server a st with
      | Some (st', _) => session server acts' st'
      | None => None
      end
  end.

(** The cache is empty or is what a completed run of the loop against
    [server] delivered. *)
Definition fromSource (server : Server) (c : list Artwork) : Prop :=
  c = [] ∨
  ∃ n fuel reqs, fetchLoop server n fuel [] ∅ 1 = (Finished c, reqs).

(** ** The selection counter and navigation *)

(** [Object.keys(persistedSelection).length], shown as "Total Selected". *)
Definition totalSelected (st : State) : nat := size (persistedSelection st).

(** [handleSubmit]: a toast with the number of selected rows; no setter is
    called. *)
Definition handleSubmit (st : State) : State * list Event :=
  (st, [ToastShow "info" "Selected Artworks"
          (pretty (totalSelected st) +:+ " rows selected")]).

(** A run of paginator events, each delivered to [onPageChange]; the
    source may answer differently from one event to the next. *)
Fixpoint navigate (moves : list (Server * Z)) (st : State) : State :=
  match moves with
  | [] => st
  | (server, eventPage) :: moves' =>
      navigate moves' (onPageChange server eventPage st).1
  end.

(** Every entry of the keyed object sits under the [id] of its row. *)
Definition keyedById (m : gmap Z Artwork) : Prop :=
  ∀ k a, m !! k = Some a → id a = k.

(** ** Test data *)

Module Sample.
Definition art (i : Z) (t : string) : Artwork :=
  mkArtwork i t "" "" "" 0 0.
Definition A := art 1 "A".
Definition B := art 2 "B".
Definition C := art 3 "C".
Definition D := art 4 "D".
Definition E := art 5 "E".

Definition firstFive : list Artwork := [A; B; C; D; E].

Definition more (l : list Artwork) (cur : Z) : option Response :=
  Some (mkResponse l (mkPagination cur 3 5)).

(** Three pages; the second page repeats [B]. *)
Definition threePages : Server := λ p,
  if decide (p = 1) then more [A; B] 1
  else if decide (p = 2) then more [B; C] 2
  else if decide (p = 3) then more [D; E] 3
  else None.

(** As [threePages], but the request for page 2 rejects. *)
Definition failsOnPage2 : Server := λ p,
  if decide (p = 1) then more [A; B] 1 else None.

(** Every request rejects. *)
Definition offline : Server := λ _, None.

(** A state in which [A], [B] (on the current page) and [E] (elsewhere)
    are selected. *)
Definition onPage1 : State :=
  {| artworks := [A; B]; loading := false; totalRecords := 5; page := 1;
     selectedRows := [A; B];
     persistedSelection := <[1 := A]> (<[2 := B]> (<[5 := E]> ∅));
     selectCount := 0; allFetchedArtworks := []; overlayLoading := false |}.
End Sample.

Module DupPage.
(** A single, last page that lists the row [A] twice. *)
Definition server : Server := λ p,
  if decide (p = 1)
  then Some (mkResponse [Sample.A; Sample.A] (mkPagination 1 1 2))
  else None.
End DupPage.

Module Cached.
(** Twelve rows in the cache, eight requested. *)
Definition twelve : list Artwork :=
  (λ i, Sample.art (Z.of_nat i) "row") <$> seq 1 12.
Definition st : State :=
  setSelectCount 8 (setAllFetchedArtworks twelve initialState).
End Cached.

Module Moved.
(** The collection after rows were removed upstream: page 1 now starts
    at [C]. *)
Definition server : Server := λ p,
  if decide (p = 1)
  then Some (mkResponse [Sample.C; Sample.D] (mkPagination 1 2 3))
  else if decide (p = 2)
  then Some (mkResponse [Sample.E] (mkPagination 2 2 3))
  else None.
End Moved.

Module Endless.
(** Every page is empty and announces a further page. *)
Definition server : Server := λ p,
  Some (mkResponse [] (mkPagination p (p + 1) 0)).
End Endless.

(** ** Lemmas on the keyed object *)

Section store.
Implicit Types (m : gmap Z Artwork) (l : list Artwork) (k : Z) (a : Artwork).

Lemma deleteAll_snoc l a m :
  deleteAll (l ++ [a]) m = delete (id a) (deleteAll l m).
Proof. unfold deleteAll. by rewrite foldl_app. Qed.

Lemma putAll_snoc l a m :
  putAll (l ++ [a]) m = <[id a := a]> (putAll l m).
Proof. unfold putAll. by rewrite foldl_app. Qed.

Lemma lookup_deleteAll_in l m k :
  k ∈ id <$> l → deleteAll l m !! k = None.
Proof.
  induction l as [|a l IH] using rev_ind; [by intros ?%elem_of_nil|].
  rewrite fmap_app, elem_of_app, deleteAll_snoc. simpl.
  destruct (decide (id a = k)) as [->|Hne].
  - intros _. apply lookup_delete_eq.
  - intros [Hin|Hin%list_elem_of_singleton]; [|congruence].
    rewrite lookup_delete_ne by done. auto.
Qed.

Lemma lookup_deleteAll_notin l m k :
  k ∉ id <$> l → deleteAll l m !! k = m !! k.
Proof.
  induction l as [|a l IH] using rev_ind; [done|].
  rewrite fmap_app, not_elem_of_app, deleteAll_snoc. simpl.
  intros [Hl Ha]. rewrite lookup_delete_ne; [auto|].
  intros <-. apply Ha. by apply list_elem_of_singleton.
Qed.

Lemma lookup_putAll_notin l m k :
  k ∉ id <$> l → putAll l m !! k = m !! k.
Proof.
  induction l as [|a l IH] using rev_ind; [done|].
  rewrite fmap_app, not_elem_of_app, putAll_snoc. simpl.
  intros [Hl Ha]. rewrite lookup_insert_ne; [auto|].
  intros <-. apply Ha. by apply list_elem_of_singleton.
Qed.

Lemma is_Some_putAll l m k :
  is_Some (putAll l m !! k) ↔ k ∈ id <$> l ∨ is_Some (m !! k).
Proof.
  induction l as [|a l IH] using rev_ind.
  - simpl. split; [auto|]. by intros [?%elem_of_nil|].
  - rewrite fmap_app, elem_of_app, putAll_snoc. simpl.
    rewrite list_elem_of_singleton.
    destruct (decide (id a = k)) as [->|Hne].
    + rewrite lookup_insert_eq. split; eauto.
    + rewrite lookup_insert_ne by done. rewrite IH.
      split; [tauto|]. intros [[?|?]|?]; [tauto|congruence|tauto].
Qed.

Lemma putAll_present l m a :
  a ∈ l → is_Some (putAll l m !! id a).
Proof.
  intros Hin. apply is_Some_putAll. left.
  by apply list_elem_of_fmap_2.
Qed.

Lemma putAll_keeps l m k :
  is_Some (m !! k) → is_Some (putAll l m !! k).
Proof. intros. apply is_Some_putAll. by right. Qed.

Lemma lookup_putAll l m k :
  putAll l m !! k = lastWith k l (m !! k).
Proof.
  revert m. induction l as [|a l IH]; intros m; [done|].
  unfold putAll, lastWith in *. simpl.
  rewrite IH, lookup_insert. by repeat case_decide.
Qed.

Lemma lastWith_None k l o :
  lastWith k l o =
  match lastWith k l None with Some a => Some a | None => o end.
Proof.
  revert o. induction l as [|a l IH]; intros o; [done|].
  simpl. case_decide.
  - rewrite (IH (Some a)). by destruct (lastWith k l None).
  - apply IH.
Qed.

Lemma lastWith_idemp k l o :
  lastWith k l (lastWith k l o) = lastWith k l o.
Proof.
  rewrite (lastWith_None k l (lastWith k l o)), (lastWith_None k l o).
  by destruct (lastWith k l None).
Qed.

Lemma putAll_idemp l m : putAll l (putAll l m) = putAll l m.
Proof.
  apply map_eq. intros k.
  by rewrite !lookup_putAll, lastWith_idemp.
Qed.

Lemma putAll_nil m : putAll [] m = m.
Proof. done. Qed.

Lemma isPersisted_true m a : isPersisted m a = true ↔ is_Some (m !! id a).
Proof. unfold isPersisted. apply bool_decide_eq_true. Qed.

Lemma elem_of_currentPageSelected arts m a :
  a ∈ currentPageSelected arts m ↔ a ∈ arts ∧ is_Some (m !! id a).
Proof.
  unfold currentPageSelected.
  rewrite !list_elem_of_In, filter_In, isPersisted_true. done.
Qed.

Lemma currentPageSelected_filter arts m :
  currentPageSelected arts m = filter (λ a, is_Some (m !! id a)) arts.
Proof.
  unfold currentPageSelected.
  induction arts as [|a l IH]; [done|].
  rewrite filter_cons. simpl. unfold isPersisted at 1.
  case_decide.
  - rewrite bool_decide_eq_true_2 by done. by rewrite IH.
  - rewrite bool_decide_eq_false_2 by done. done.
Qed.
End store.

(** ** Manual selection *)

(** Rows of one page with pairwise distinct keys are determined by their
    key. *)
Lemma same_id_same_row (l : list Artwork) (a b : Artwork) :
  NoDup (id <$> l) → a ∈ l → b ∈ l → id a = id b → a = b.
Proof.
  induction l as [|x l IH]; [by intros _ ?%elem_of_nil|].
  rewrite fmap_cons, NoDup_cons, !elem_of_cons.
  intros [Hx Hl] [->|Ha] [->|Hb] Hid; auto.
  - exfalso. apply Hx. rewrite Hid. by apply list_elem_of_fmap_2.
  - exfalso. apply Hx. rewrite <- Hid. by apply list_elem_of_fmap_2.
Qed.

(** C1. After [onSelectionChange] with a new visible selection drawn from the
    rows of the current page, the persisted selection holds the key of a
    current-page row exactly when that key is among the keys of the new
    selection (and, the keys on the page being distinct, exactly when that
    row is in the new selection); every entry under a key that belongs to no
    current-page row is as it was before the call. *)
Theorem onSelectionChange_mirrors_page
    (st : State) (newSelection : list Artwork) :
  newSelection ⊆ artworks st →
  let after := persistedSelection (onSelectionChange newSelection st) in
  (∀ r, r ∈ artworks st →
        (is_Some (after !! id r) ↔ id r ∈ id <$> newSelection)) ∧
  (NoDup (id <$> artworks st) →
   ∀ r, r ∈ artworks st → (is_Some (after !! id r) ↔ r ∈ newSelection)) ∧
  (∀ k, k ∉ id <$> artworks st →
        after !! k = persistedSelection st !! k).
Proof.
  intros Hsub after.
  assert (Hkeys : ∀ r, r ∈ artworks st →
            (is_Some (after !! id r) ↔ id r ∈ id <$> newSelection)).
  { intros r Hr. subst after. simpl. rewrite is_Some_putAll.
    rewrite lookup_deleteAll_in by (by apply list_elem_of_fmap_2).
    split; [intros [?|[? ?]]; [done|discriminate] | auto]. }
  split; [exact Hkeys|split].
  - intros Hnd r Hr. rewrite (Hkeys r Hr). split.
    + intros (r' & Hid & Hr')%list_elem_of_fmap.
      assert (r = r') as ->; [|done].
      eapply same_id_same_row; eauto.
    + apply list_elem_of_fmap_2.
  - intros k Hk. subst after. simpl.
    rewrite lookup_putAll_notin, lookup_deleteAll_notin; [done..|].
    intros (r & -> & Hr)%list_elem_of_fmap. apply Hk.
    apply list_elem_of_fmap_2. by apply Hsub.
Qed.

(** The clear-then-insert scenario: [A], [B] (current page) and [E]
    (another page) selected, the table reports [A] alone. *)
Lemma onSelectionChange_mirrors_page_witness :
  [Sample.A] ⊆ artworks Sample.onPage1 ∧
  let after :=
    persistedSelection (onSelectionChange [Sample.A] Sample.onPage1) in
  (∀ r, r ∈ artworks Sample.onPage1 →
        (is_Some (after !! id r) ↔ id r ∈ id <$> [Sample.A])) ∧
  (NoDup (id <$> artworks Sample.onPage1) →
   ∀ r, r ∈ artworks Sample.onPage1 →
        (is_Some (after !! id r) ↔ r ∈ [Sample.A])) ∧
  (∀ k, k ∉ id <$> artworks Sample.onPage1 →
        after !! k = persistedSelection Sample.onPage1 !! k).
Proof.
  assert (H : [Sample.A] ⊆ artworks Sample.onPage1).
  { intros x Hx. apply list_elem_of_singleton in Hx as ->.
    simpl. apply list_elem_of_here. }
  split; [exact H|].
  exact (onSelectionChange_mirrors_page Sample.onPage1 [Sample.A] H).
Defined.

Example onSelectionChange_clear_then_insert :
  let after :=
    persistedSelection (onSelectionChange [Sample.A] Sample.onPage1) in
  after !! 1 = Some Sample.A ∧ after !! 2 = None ∧ after !! 5 = Some Sample.E.
Proof. vm_compute. auto. Qed.

(** ** Page load *)

Lemma persistedSelection_fetchArtworks server p st :
  persistedSelection (fetchArtworks server p st).1 = persistedSelection st.
Proof. unfold fetchArtworks. by destruct (server p). Qed.

Lemma persistedSelection_loadPage server p st :
  persistedSelection (loadPage server p st).1 = persistedSelection st.
Proof.
  unfold loadPage, fetchArtworks. by destruct (server p).
Qed.

Lemma loadPage_Some server p st res :
  server p = Some res →
  artworks (loadPage server p st).1 = data res ∧
  selectedRows (loadPage server p st).1 =
    currentPageSelected (data res) (persistedSelection st).
Proof. intros H. unfold loadPage, fetchArtworks. by rewrite H. Qed.

(** C8. A page load that brings in the rows [data res] sets the checked rows
    to exactly the rows of that page whose key is in the persisted selection
    and leaves the persisted selection as it was (whether or not the request
    succeeded).  Hence a row checked on one page, after loading another page
    and then the first page again, is checked. *)
Theorem loadPage_recomputes_checked_rows
    (server : Server) (p : Z) (st : State) (res : Response) :
  server p = Some res →
  let after := (loadPage server p st).1 in
  artworks after = data res ∧
  selectedRows after = filter (λ a, is_Some (persistedSelection st !! id a))
                              (data res) ∧
  (∀ a, a ∈ selectedRows after ↔
        a ∈ data res ∧ is_Some (persistedSelection st !! id a)) ∧
  persistedSelection after = persistedSelection st ∧
  (∀ server' p' st', persistedSelection (loadPage server' p' st').1
                     = persistedSelection st') ∧
  (∀ x newSelection server2 p2,
      x ∈ newSelection → x ∈ data res →
      let st1 := onSelectionChange newSelection st in
      let st2 := (loadPage server2 p2 st1).1 in
      let st3 := (loadPage server p st2).1 in
      x ∈ selectedRows st3).
Proof.
  intros H after.
  destruct (loadPage_Some server p st res H) as [Ha Hs].
  split; [done|]. split.
  { subst after. rewrite Hs. apply currentPageSelected_filter. }
  split.
  { intros a. subst after. rewrite Hs. apply elem_of_currentPageSelected. }
  split; [apply persistedSelection_loadPage|].
  split; [intros; apply persistedSelection_loadPage|].
  intros x ns server2 p2 Hx Hpage st1 st2 st3.
  destruct (loadPage_Some server p st2 res H) as [_ Hs3].
  subst st3. rewrite Hs3. apply elem_of_currentPageSelected.
  split; [done|]. subst st2. rewrite persistedSelection_loadPage.
  subst st1. simpl. by apply putAll_present.
Qed.

Lemma loadPage_recomputes_checked_rows_witness :
  Sample.threePages 1 = Sample.more [Sample.A; Sample.B] 1 ∧
  let after := (loadPage Sample.threePages 1 Sample.onPage1).1 in
  artworks after = [Sample.A; Sample.B] ∧
  selectedRows after =
    filter (λ a, is_Some (persistedSelection Sample.onPage1 !! id a))
           [Sample.A; Sample.B] ∧
  persistedSelection after = persistedSelection Sample.onPage1.
Proof.
  split; [reflexivity|].
  destruct (loadPage_recomputes_checked_rows Sample.threePages 1
              Sample.onPage1 _ eq_refl) as (H1 & H2 & _ & H4 & _).
  split; [exact H1|]. split; [exact H2|exact H4].
Defined.

(** On page 2 ([B] already checked) check [C], visit page 1, come back:
    [C] is still checked. *)
Example selection_survives_navigation :
  let st1 := (loadPage Sample.threePages 2 Sample.onPage1).1 in
  let st2 := onSelectionChange [Sample.B; Sample.C] st1 in
  let st3 := (loadPage Sample.threePages 1 st2).1 in
  let st4 := (loadPage Sample.threePages 2 st3).1 in
  selectedRows st1 = [Sample.B] ∧
  selectedRows st3 = [Sample.A; Sample.B] ∧
  selectedRows st4 = [Sample.B; Sample.C].
Proof. vm_compute. done. Qed.

(** ** The fetch loop *)

Section loop.
Context (server : Server).
Implicit Types (fetched acc l : list Artwork) (seen : gset Z) (p n : Z).

Lemma addIds_spec l seen : addIds l seen = list_to_set (id <$> l) ∪ seen.
Proof.
  revert seen. induction l as [|a l IH]; intros seen; simpl.
  - set_solver.
  - unfold addIds in *. simpl. rewrite IH. set_solver.
Qed.

Lemma firstArrivals_fresh seen l a :
  a ∈ firstArrivals seen l → (id a ∉ seen) ∧ a ∈ l.
Proof.
  revert seen. induction l as [|x l IH]; intros seen; simpl.
  - by intros ?%elem_of_nil.
  - case_decide as Hx.
    + intros [? ?]%IH. split; [done|]. by apply list_elem_of_further.
    + intros [->|[Hs ?]%IH]%elem_of_cons.
      * split; [done|]. apply list_elem_of_here.
      * split; [set_solver|]. by apply list_elem_of_further.
Qed.

Lemma firstArrivals_NoDup seen l : NoDup (id <$> firstArrivals seen l).
Proof.
  revert seen. induction l as [|x l IH]; intros seen; simpl.
  - constructor.
  - case_decide; [apply IH|].
    rewrite fmap_cons. constructor; [|apply IH].
    intros (a & Hid & [Hs _]%firstArrivals_fresh)%list_elem_of_fmap.
    set_solver.
Qed.

Lemma firstArrivals_app seen l1 l2 :
  firstArrivals seen (l1 ++ l2) =
  firstArrivals seen l1 ++
  firstArrivals (addIds (firstArrivals seen l1) seen) l2.
Proof.
  revert seen. induction l1 as [|x l1 IH]; intros seen; simpl; [done|].
  case_decide; [apply IH|].
  by rewrite IH.
Qed.

Lemma filter_unseen_irrelevant (k : Z) seen (l : list Artwork) :
  k ∉ id <$> l →
  filter (λ a, id a ∉ {[k]} ∪ seen) l = filter (λ a, id a ∉ seen) l.
Proof.
  induction l as [|x l IH]; [done|].
  rewrite fmap_cons, not_elem_of_cons. intros [Hne Hl].
  rewrite !filter_cons, IH by done.
  destruct (decide (id x ∉ {[k]} ∪ seen)), (decide (id x ∉ seen));
    [done|set_solver|set_solver|done].
Qed.

(** On a page without repeated keys, the source's filter against the keys
    seen before the page is the first-arrival filter. *)
Lemma filter_unseen_firstArrivals seen (l : list Artwork) :
  NoDup (id <$> l) →
  filter (λ a, id a ∉ seen) l = firstArrivals seen l.
Proof.
  revert seen. induction l as [|x l IH]; intros seen; [done|].
  rewrite fmap_cons, NoDup_cons. intros [Hx Hl].
  rewrite filter_cons. simpl.
  destruct (decide (id x ∉ seen)) as [Hn|Hn].
  - rewrite decide_False by done. f_equal.
    rewrite <- IH by done. by rewrite filter_unseen_irrelevant.
  - rewrite decide_True by (by apply dec_stable). by apply IH.
Qed.

Lemma received_cons p reqs :
  received server (p :: reqs) =
  from_option data [] (server p) ++ received server reqs.
Proof. done. Qed.

(** What one run delivers, from any point of the loop on. *)
Lemma fetchLoop_firstArrivals n fuel fetched seen p out reqs r :
  fetchLoop server n fuel fetched seen p = (out, reqs) →
  out = Finished r ∨ out = Threw r →
  pagesDistinct server reqs →
  r = fetched ++ firstArrivals seen (received server reqs).
Proof.
  revert fetched seen p out reqs.
  induction fuel as [|fuel IH]; intros fetched seen p out reqs; simpl.
  { intros [= <- <-] [?|?]; discriminate. }
  case_decide as Hlen.
  2:{ intros [= <- <-] [[= <-]|?] _; [|discriminate].
      by rewrite app_nil_r. }
  destruct (server p) as [res|] eqn:Hres.
  2:{ intros [= <- <-] [?|[= <-]] _; [discriminate|].
      rewrite received_cons, Hres. simpl. by rewrite app_nil_r. }
  case_decide as Hlast.
  - intros [= <- <-] [[= <-]|?] Hd; [|discriminate].
    rewrite received_cons, Hres. simpl.
    rewrite app_nil_r, filter_unseen_firstArrivals; [done|].
    eapply Hd; [apply list_elem_of_here|done].
  - destruct (fetchLoop _ _ _ _ _ _) as [out' reqs'] eqn:Hrec.
    intros [= <- <-] Hout Hd.
    assert (Hpage : NoDup (id <$> data res)).
    { eapply Hd; [apply list_elem_of_here|done]. }
    eapply IH in Hrec; [|done|].
    2:{ intros q res' Hq. apply Hd. by apply list_elem_of_further. }
    rewrite Hrec, received_cons, Hres. simpl.
    rewrite firstArrivals_app, app_assoc.
    by rewrite !filter_unseen_firstArrivals.
Qed.

(** The result extends the accumulator the loop was entered with. *)
Lemma fetchLoop_extends n fuel fetched seen p r reqs :
  fetchLoop server n fuel fetched seen p = (Finished r, reqs) →
  fetched `prefix_of` r.
Proof.
  revert fetched seen p reqs.
  induction fuel as [|fuel IH]; intros fetched seen p reqs; simpl.
  { intros [=]. }
  case_decide as Hlen; [|by intros [= <- <-]].
  destruct (server p) as [res|]; [|intros [=]].
  case_decide as Hlast.
  - intros [= <- <-]. by apply prefix_app_r.
  - destruct (fetchLoop _ _ _ _ _ _) as [out' reqs'] eqn:Hrec.
    intros [= -> <-]. apply IH in Hrec.
    etrans; [|exact Hrec]. by apply prefix_app_r.
Qed.

(** More fuel does not change a run that ended. *)
Lemma fetchLoop_more_fuel n fuel fuel' fetched seen p out reqs :
  fetchLoop server n fuel fetched seen p = (out, reqs) →
  out ≠ Unfinished → (fuel ≤ fuel')%nat →
  fetchLoop server n fuel' fetched seen p = (out, reqs).
Proof.
  revert fuel' fetched seen p out reqs.
  induction fuel as [|fuel IH]; intros fuel' fetched seen p out reqs; simpl.
  { by intros [= <- <-] ?. }
  intros Hrun Hout Hle. destruct fuel' as [|fuel']; [lia|]. simpl.
  case_decide as Hlen; [|done].
  destruct (server p) as [res|]; [|done].
  case_decide as Hlast; [done|].
  destruct (fetchLoop _ _ fuel _ _ _) as [out' reqs'] eqn:Hrec.
  injection Hrun as -> <-.
  by rewrite (IH fuel' _ _ _ _ _ Hrec Hout ltac:(lia)).
Qed.

Lemma fetchLoop_deterministic n fuel1 fuel2 fetched seen p o1 q1 o2 q2 :
  fetchLoop server n fuel1 fetched seen p = (o1, q1) →
  fetchLoop server n fuel2 fetched seen p = (o2, q2) →
  o1 ≠ Unfinished → o2 ≠ Unfinished → o1 = o2 ∧ q1 = q2.
Proof.
  intros H1 H2 Ho1 Ho2.
  apply (fetchLoop_more_fuel _ _ (fuel1 `max` fuel2)%nat) in H1;
    [|done|lia].
  apply (fetchLoop_more_fuel _ _ (fuel1 `max` fuel2)%nat) in H2;
    [|done|lia].
  rewrite H1 in H2. by injection H2.
Qed.
End loop.

Section loop_runs.
Context (server : Server).
Implicit Types (fetched r : list Artwork) (seen : gset Z) (p n : Z).

(** Two runs against the same source from the same point: a run asked for
    more than the other delivered passes through everything the other
    delivered. *)
Lemma fetchLoop_prefix n1 n2 fuel1 fuel2 fetched seen p r1 q1 r2 q2 :
  fetchLoop server n1 fuel1 fetched seen p = (Finished r1, q1) →
  fetchLoop server n2 fuel2 fetched seen p = (Finished r2, q2) →
  Z.of_nat (length r1) < n2 →
  r1 `prefix_of` r2.
Proof.
  revert fuel2 fetched seen p q1 q2.
  induction fuel1 as [|fuel1 IH]; intros fuel2 fetched seen p q1 q2 H1 H2 Hn.
  { discriminate. }
  pose proof (fetchLoop_extends _ _ _ _ _ _ _ _ H1) as Hext1.
  pose proof (fetchLoop_extends _ _ _ _ _ _ _ _ H2) as Hext2.
  apply prefix_length in Hext1 as Hlen1.
  simpl in H1. case_decide as Hshort1.
  2:{ by injection H1 as <- <-. }
  destruct fuel2 as [|fuel2]; [discriminate|]. simpl in H2.
  rewrite decide_True in H2 by lia.
  destruct (server p) as [res|]; [|discriminate].
  case_decide as Hlast.
  - injection H1 as <- <-. by injection H2 as <- <-.
  - destruct (fetchLoop _ n1 _ _ _ _) as [o1 q1'] eqn:Hrec1.
    destruct (fetchLoop _ n2 _ _ _ _) as [o2 q2'] eqn:Hrec2.
    injection H1 as -> <-. injection H2 as -> <-.
    by eapply IH.
Qed.

(** If some page from [p] on ends the loop, fuel up to that page is
    enough for the run to end. *)
Lemma fetchLoop_ends n (k : nat) fetched seen p :
  stopsAt server (p + Z.of_nat k) →
  (fetchLoop server n (S k) fetched seen p).1 ≠ Unfinished.
Proof.
  revert fetched seen p.
  induction k as [|k IH]; intros fetched seen p Hstop.
  - simpl. replace (p + Z.of_nat 0) with p in Hstop by lia.
    unfold stopsAt in Hstop.
    case_decide; [|done].
    destruct (server p); [|done].
    by rewrite decide_True.
  - change (fetchLoop server n (S (S k)) fetched seen p)
      with (if decide (Z.of_nat (length fetched) < n) then
              match server p with
              | None => (Threw fetched, [p])
              | Some res =>
                  let uniqueNew :=
                    filter (λ item, id item ∉ seen) (data res) in
                  let seenIds' := addIds uniqueNew seen in
                  let fetched' := fetched ++ uniqueNew in
                  if decide (current_page (pagination res)
                             >= total_pages (pagination res))
                  then (Finished fetched', [p])
                  else
                    let '(out, reqs) :=
                      fetchLoop server n (S k) fetched' seenIds' (p + 1) in
                    (out, p :: reqs)
              end
            else (Finished fetched, [])).
    case_decide; [|done].
    destruct (server p) as [res|]; [|done]. cbv zeta.
    case_decide; [done|].
    specialize (IH (fetched ++ filter (λ item, id item ∉ seen) (data res))
                   (addIds (filter (λ item, id item ∉ seen) (data res)) seen)
                   (p + 1)).
    destruct (fetchLoop _ _ _ _ _ _) as [out reqs]. simpl in *.
    apply IH. by replace (p + 1 + Z.of_nat k) with (p + Z.of_nat (S k)) by lia.
Qed.
End loop_runs.

(** ** First arrivals *)

Lemma firstArrivals_sublist (seen : gset Z) (l : list Artwork) :
  firstArrivals seen l `sublist_of` l.
Proof.
  revert seen. induction l as [|x l IH]; intros seen; simpl; [done|].
  case_decide; [apply sublist_cons|apply sublist_skip]; apply IH.
Qed.

Lemma firstArrivals_complete (seen : gset Z) (l : list Artwork) (a : Artwork) :
  a ∈ l → id a ∈ seen ∨ id a ∈ id <$> firstArrivals seen l.
Proof.
  revert seen. induction l as [|x l IH]; intros seen; simpl.
  { by intros ?%elem_of_nil. }
  intros [->|Hin]%elem_of_cons.
  - case_decide; [by left|]. right. rewrite fmap_cons. apply list_elem_of_here.
  - case_decide; [by apply IH|].
    destruct (IH ({[id x]} ∪ seen) Hin) as [[Hx%elem_of_singleton|?]%elem_of_union|?].
    + right. rewrite fmap_cons, Hx. apply list_elem_of_here.
    + by left.
    + right. rewrite fmap_cons. by apply list_elem_of_further.
Qed.

(** A kept row is the first of the sequence under its key. *)
Lemma firstArrivals_first (seen : gset Z) (l : list Artwork) (a : Artwork) :
  a ∈ firstArrivals seen l →
  ∃ l1 l2, l = l1 ++ a :: l2 ∧ id a ∉ id <$> l1.
Proof.
  revert seen. induction l as [|x l IH]; intros seen; simpl.
  { by intros ?%elem_of_nil. }
  case_decide as Hx.
  - intros Hin. destruct (firstArrivals_fresh _ _ _ Hin) as [Hfresh _].
    destruct (IH _ Hin) as (l1 & l2 & -> & Hl1).
    exists (x :: l1), l2. split; [done|].
    rewrite fmap_cons, not_elem_of_cons. split; [|done]. congruence.
  - intros [->|Hin]%elem_of_cons.
    + exists [], l. split; [done|]. apply not_elem_of_nil.
    + destruct (firstArrivals_fresh _ _ _ Hin) as [Hfresh _].
      destruct (IH _ Hin) as (l1 & l2 & -> & Hl1).
      exists (x :: l1), l2. split; [done|].
      rewrite fmap_cons, not_elem_of_cons. split; [|done].
      intros Heq. apply Hfresh. rewrite Heq.
      apply elem_of_union_l. by apply elem_of_singleton.
Qed.

(** ** Deduplication in the fetch loop *)

(** C9, as stated, fails: a page that lists a row twice passes the filter
    whole, because the keys of a page are recorded only after the page has
    been filtered. *)
Lemma fetchLoop_keeps_page_duplicates :
  ¬ (∀ (server : Server) (n : Z) (fuel : nat) (r : list Artwork)
       (reqs : list Z),
        fetchLoop server n fuel [] ∅ 1 = (Finished r, reqs) →
        NoDup (id <$> r)).
Proof.
  intros H.
  specialize (H DupPage.server 5 2%nat [Sample.A; Sample.A] [1] eq_refl).
  apply NoDup_cons in H as [Hin _]. apply Hin. simpl. apply list_elem_of_here.
Qed.

(** C9 (amended). When no single page of the run lists a key twice, the
    rows accumulated by the loop, whether it ends normally or by a rejected
    request, carry each key at most once: they are the first arrivals, in
    arrival order, of the rows received over the pages requested.  Keys that
    come again on a later page are dropped there. *)
Theorem fetchLoop_accumulates_first_arrivals
    (server : Server) (n : Z) (fuel : nat) (out : LoopOutcome)
    (reqs : list Z) (r : list Artwork) :
  fetchLoop server n fuel [] ∅ 1 = (out, reqs) →
  out = Finished r ∨ out = Threw r →
  pagesDistinct server reqs →
  NoDup (id <$> r) ∧
  r = firstArrivals ∅ (received server reqs) ∧
  r `sublist_of` received server reqs ∧
  (∀ a, a ∈ received server reqs → id a ∈ id <$> r) ∧
  (∀ a, a ∈ r → ∃ l1 l2, received server reqs = l1 ++ a :: l2 ∧
                         id a ∉ id <$> l1).
Proof.
  intros Hrun Hout Hd.
  pose proof (fetchLoop_firstArrivals _ _ _ _ _ _ _ _ _ Hrun Hout Hd) as Hr.
  simpl in Hr. subst r.
  split; [apply firstArrivals_NoDup|].
  split; [done|].
  split; [apply firstArrivals_sublist|].
  split.
  - intros a Ha.
    destruct (firstArrivals_complete ∅ _ _ Ha) as [H|H]; [|done].
    by apply not_elem_of_empty in H.
  - intros a. apply firstArrivals_first.
Qed.

Lemma pagesDistinct_threePages reqs : pagesDistinct Sample.threePages reqs.
Proof.
  intros p res _. unfold Sample.threePages, Sample.more.
  repeat case_decide; intros [= <-]; simpl;
    repeat (constructor; [set_solver|]); constructor.
Qed.

(** Pages [A; B], [B; C], [D; E]: the second [B] is dropped. *)
Lemma fetchLoop_accumulates_first_arrivals_witness :
  fetchLoop Sample.threePages 5 4 [] ∅ 1
    = (Finished Sample.firstFive, [1; 2; 3]) ∧
  NoDup (id <$> Sample.firstFive) ∧
  Sample.firstFive
    = firstArrivals ∅ (received Sample.threePages [1; 2; 3]).
Proof.
  split; [reflexivity|].
  destruct (fetchLoop_accumulates_first_arrivals Sample.threePages 5 4
              (Finished Sample.firstFive) [1; 2; 3]
              Sample.firstFive eq_refl (or_introl eq_refl)
              (pagesDistinct_threePages _)) as (H1 & H2 & _).
  split; [exact H1|exact H2].
Defined.

(** ** Bulk select *)

Section bulk.
Context (server : Server).
Implicit Types (st : State) (n : Z) (fuel : nat).

Lemma allDataFor_inv fuel st allData st1 evs :
  allDataFor server fuel st = Some (allData, st1, evs) →
  AllData server fuel st allData st1 evs.
Proof.
  unfold allDataFor, fetchAllArtworks. case_decide as Hlen.
  - destruct (fetchLoop _ _ _ _ _ _) as [[r|acc|] reqs] eqn:Hrun;
      intros [= <- <- <-]; econstructor; eauto.
  - intros [= <- <- <-]. by constructor.
Qed.

Lemma AllData_frame fuel st allData st1 evs :
  AllData server fuel st allData st1 evs →
  artworks st1 = artworks st ∧
  persistedSelection st1 = persistedSelection st ∧
  selectedRows st1 = selectedRows st ∧
  selectCount st1 = selectCount st.
Proof. by destruct 1. Qed.

Lemma handleSelectCount_inv fuel st st' evs :
  0 < selectCount st →
  handleSelectCount server fuel st = Some (st', evs) →
  ∃ allData st1 evs1,
    allDataFor server fuel st = Some (allData, st1, evs1) ∧
    AllData server fuel st allData st1 evs1 ∧
    persistedSelection st' =
      putAll (take (Z.to_nat (selectCount st)) allData)
             (persistedSelection st) ∧
    allFetchedArtworks st' = allFetchedArtworks st1 ∧
    selectCount st' = selectCount st ∧
    artworks st' = artworks st ∧
    selectedRows st' =
      currentPageSelected (artworks st) (persistedSelection st') ∧
    evs = evs1 ++ [OverlayHide;
                   selectionUpdatedToast (persistedSelection st')].
Proof.
  intros Hn. unfold handleSelectCount. rewrite decide_False by lia.
  destruct (allDataFor server fuel st) as [[[allData st1] evs1]|] eqn:Hdata;
    [|done].
  intros [= <- <-]. exists allData, st1, evs1.
  pose proof (allDataFor_inv _ _ _ _ _ Hdata) as HA.
  destruct (AllData_frame _ _ _ _ _ HA) as (? & ? & ? & ?).
  by repeat split.
Qed.

(** Enough fuel: if some page ends the loop, the handler returns. *)
Lemma handleSelectCount_returns st (k : nat) :
  stopsAt server (1 + Z.of_nat k) →
  is_Some (handleSelectCount server (S k) st).
Proof.
  intros Hstop. unfold handleSelectCount.
  case_decide; [by eexists|].
  unfold allDataFor. case_decide; [|by eexists].
  unfold fetchAllArtworks.
  pose proof (fetchLoop_ends server (selectCount st) k [] ∅ 1 Hstop) as He.
  destruct (fetchLoop _ _ _ _ _ _) as [[r|acc|] reqs];
    [by eexists|by eexists|by destruct He].
Qed.
End bulk.

(** C4. A bulk-select with a count [n <= 0] returns at the guard, whatever
    the fuel: the only event is the invalid-number toast, no page is
    requested, and the state, in particular the persisted selection and the
    fetched cache, is the state the handler was called in. *)
Theorem bulkSelect_rejects_nonpositive
    (server : Server) (fuel : nat) (n : Z) (st : State) :
  n <= 0 →
  ∃ st' evs,
    bulkSelect server fuel n st = Some (st', evs) ∧
    handleSelectCount server fuel (setSelectCount n st) = Some (st', evs) ∧
    st' = setSelectCount n st ∧
    evs = [invalidNumberToast] ∧
    (∀ p, Fetch p ∉ evs) ∧
    persistedSelection st' = persistedSelection st ∧
    allFetchedArtworks st' = allFetchedArtworks st ∧
    selectedRows st' = selectedRows st.
Proof.
  intros Hn. exists (setSelectCount n st), [invalidNumberToast].
  unfold bulkSelect, handleSelectCount. simpl.
  rewrite decide_True by done. repeat split; try done.
  intros p Hp. apply list_elem_of_singleton in Hp. discriminate.
Qed.

Lemma bulkSelect_rejects_nonpositive_witness :
  -1 <= 0 ∧
  ∃ st' evs,
    bulkSelect Sample.threePages 0 (-1) Sample.onPage1 = Some (st', evs) ∧
    handleSelectCount Sample.threePages 0 (setSelectCount (-1) Sample.onPage1)
      = Some (st', evs) ∧
    st' = setSelectCount (-1) Sample.onPage1 ∧
    evs = [invalidNumberToast] ∧
    (∀ p, Fetch p ∉ evs) ∧
    persistedSelection st' = persistedSelection Sample.onPage1 ∧
    allFetchedArtworks st' = allFetchedArtworks Sample.onPage1 ∧
    selectedRows st' = selectedRows Sample.onPage1.
Proof.
  assert (H : -1 <= 0) by lia.
  split; [exact H|].
  exact (bulkSelect_rejects_nonpositive Sample.threePages 0 (-1)
           Sample.onPage1 H).
Defined.

(** C5. When the fetched cache already holds at least [selectCount] rows,
    [handleSelectCount] returns whatever the fuel, requests no page, takes
    the cache itself as [allData] and leaves the cache as it was. *)
Theorem handleSelectCount_reuses_cache
    (server : Server) (fuel : nat) (st : State) :
  selectCount st <= Z.of_nat (length (allFetchedArtworks st)) →
  allDataFor server fuel st = Some (allFetchedArtworks st, st, []) ∧
  ∃ st' evs,
    handleSelectCount server fuel st = Some (st', evs) ∧
    (∀ p, Fetch p ∉ evs) ∧
    allFetchedArtworks st' = allFetchedArtworks st ∧
    (0 < selectCount st →
     persistedSelection st' =
       putAll (take (Z.to_nat (selectCount st)) (allFetchedArtworks st))
              (persistedSelection st)).
Proof.
  intros Hlen.
  assert (Hdata : allDataFor server fuel st
                  = Some (allFetchedArtworks st, st, [])).
  { unfold allDataFor. by rewrite decide_False by lia. }
  split; [done|].
  unfold handleSelectCount. case_decide as Hn.
  - eexists _, _. split; [done|]. split; [|split; [done|lia]].
    intros p Hp. apply list_elem_of_singleton in Hp. discriminate.
  - rewrite Hdata. eexists _, _. split; [done|]. split; [|done].
    intros p Hp. simpl in Hp.
    apply elem_of_cons in Hp as [?|Hp]; [discriminate|].
    apply list_elem_of_singleton in Hp. discriminate.
Qed.

Lemma handleSelectCount_reuses_cache_witness :
  selectCount Cached.st <= Z.of_nat (length (allFetchedArtworks Cached.st)) ∧
  ∃ st' evs,
    handleSelectCount Sample.offline 0 Cached.st = Some (st', evs) ∧
    (∀ p, Fetch p ∉ evs) ∧
    allFetchedArtworks st' = Cached.twelve.
Proof.
  assert (H : selectCount Cached.st
              <= Z.of_nat (length (allFetchedArtworks Cached.st))).
  { vm_compute. discriminate. }
  split; [exact H|].
  destruct (handleSelectCount_reuses_cache Sample.offline 0 Cached.st H)
    as (_ & st' & evs & Hrun & Hno & Hcache & _).
  exists st', evs. split; [exact Hrun|]. split; [exact Hno|exact Hcache].
Defined.

(** C3, as stated, fails: when the request for a page rejects, the rows
    accumulated so far are not what [fetchAllArtworks] returns. *)
Lemma fetchAllArtworks_drops_partial_result :
  ¬ (∀ (server : Server) (n : Z) (fuel : nat) (st : State)
       (acc : list Artwork) (reqs : list Z),
        fetchLoop server n fuel [] ∅ 1 = (Threw acc, reqs) →
        ∃ st1 evs, fetchAllArtworks server n fuel st = Some (acc, st1, evs)).
Proof.
  intros H.
  destruct (H Sample.failsOnPage2 5 3%nat initialState
              [Sample.A; Sample.B] [1; 2] eq_refl) as (st1 & evs & Hrun).
  vm_compute in Hrun. discriminate.
Qed.

(** C3 (amended). When a page request of the fetch loop rejects, whatever
    was accumulated is dropped: [fetchAllArtworks] logs the error, returns
    the empty array without raising, and leaves the fetched cache and the
    persisted selection as they were; a bulk-select that needed this fetch
    then has no rows to select. *)
Theorem fetchAllArtworks_failure_returns_empty
    (server : Server) (n : Z) (fuel : nat) (st : State)
    (acc : list Artwork) (reqs : list Z) :
  fetchLoop server n fuel [] ∅ 1 = (Threw acc, reqs) →
  ∃ st1 evs,
    fetchAllArtworks server n fuel st = Some ([], st1, evs) ∧
    ConsoleError "Error fetching all artworks:" ∈ evs ∧
    allFetchedArtworks st1 = allFetchedArtworks st ∧
    persistedSelection st1 = persistedSelection st ∧
    overlayLoading st1 = false ∧
    (Z.of_nat (length (allFetchedArtworks st)) < n →
     allDataFor server fuel (setSelectCount n st)
       = Some ([], setSelectCount n st1, evs)).
Proof.
  intros Hrun. unfold fetchAllArtworks. rewrite Hrun.
  eexists _, _. split; [done|]. split.
  { apply elem_of_app. right. apply list_elem_of_here. }
  repeat split; try done.
  intros Hlen. unfold allDataFor, fetchAllArtworks. simpl.
  rewrite decide_True by done. rewrite Hrun. reflexivity.
Qed.

Lemma fetchAllArtworks_failure_returns_empty_witness :
  fetchLoop Sample.failsOnPage2 5 3 [] ∅ 1
    = (Threw [Sample.A; Sample.B], [1; 2]) ∧
  ∃ st1 evs,
    fetchAllArtworks Sample.failsOnPage2 5 3 Sample.onPage1
      = Some ([], st1, evs) ∧
    allFetchedArtworks st1 = allFetchedArtworks Sample.onPage1.
Proof.
  split; [reflexivity|].
  destruct (fetchAllArtworks_failure_returns_empty Sample.failsOnPage2 5 3
              Sample.onPage1 [Sample.A; Sample.B] [1; 2] eq_refl)
    as (st1 & evs & Hrun & _ & Hcache & _).
  exists st1, evs. split; [exact Hrun|exact Hcache].
Defined.

(** C10. A bulk-select with a positive count whose fetch ends in a rejected
    request returns normally and commits nothing: the persisted selection
    and the fetched cache after it equal those before it. *)
Theorem bulkSelect_failed_fetch_commits_nothing
    (server : Server) (fuel : nat) (n : Z) (st : State)
    (acc : list Artwork) (reqs : list Z) :
  0 < n →
  Z.of_nat (length (allFetchedArtworks st)) < n →
  fetchLoop server n fuel [] ∅ 1 = (Threw acc, reqs) →
  ∃ st' evs,
    bulkSelect server fuel n st = Some (st', evs) ∧
    persistedSelection st' = persistedSelection st ∧
    allFetchedArtworks st' = allFetchedArtworks st.
Proof.
  intros Hn Hlen Hrun.
  unfold bulkSelect, handleSelectCount, allDataFor, fetchAllArtworks. simpl.
  rewrite decide_False by lia. rewrite decide_True by done. rewrite Hrun.
  eexists _, _. split; [done|]. simpl. by rewrite take_nil.
Qed.

Lemma bulkSelect_failed_fetch_commits_nothing_witness :
  0 < 5 ∧
  Z.of_nat (length (allFetchedArtworks Sample.onPage1)) < 5 ∧
  fetchLoop Sample.offline 5 1 [] ∅ 1 = (Threw [], [1]) ∧
  ∃ st' evs,
    bulkSelect Sample.offline 1 5 Sample.onPage1 = Some (st', evs) ∧
    persistedSelection st' = persistedSelection Sample.onPage1 ∧
    allFetchedArtworks st' = allFetchedArtworks Sample.onPage1.
Proof.
  assert (H1 : 0 < 5) by lia.
  assert (H2 : Z.of_nat (length (allFetchedArtworks Sample.onPage1)) < 5)
    by (simpl; lia).
  split; [exact H1|]. split; [exact H2|]. split; [reflexivity|].
  exact (bulkSelect_failed_fetch_commits_nothing Sample.offline 1 5
           Sample.onPage1 [] [1] H1 H2 eq_refl).
Defined.

(** C2. After a bulk-select of a positive [n] that has returned, with
    [allData] the array the handler obtained (the cache, or what the fetch
    returned): each of the first [min n (length allData)] rows of [allData]
    has its key in the persisted selection, every key selected before is
    still selected, and entries under keys outside those rows are the
    entries from before.  [allData] is the fetched cache as it stands
    after the call, or empty when the fetch was rejected. *)
Theorem bulkSelect_adds_first_n
    (server : Server) (fuel : nat) (n : Z) (st st' : State)
    (evs : list Event) :
  0 < n →
  bulkSelect server fuel n st = Some (st', evs) →
  ∃ allData st1 evs1,
    allDataFor server fuel (setSelectCount n st) = Some (allData, st1, evs1) ∧
    (allData = allFetchedArtworks st' ∨ allData = []) ∧
    (∀ (i : nat) r,
        Z.of_nat i < Z.min n (Z.of_nat (length allData)) →
        allData !! i = Some r →
        is_Some (persistedSelection st' !! id r)) ∧
    (∀ k, is_Some (persistedSelection st !! k) →
          is_Some (persistedSelection st' !! k)) ∧
    (∀ k, k ∉ id <$> take (Z.to_nat n) allData →
          persistedSelection st' !! k = persistedSelection st !! k).
Proof.
  intros Hn Hrun. unfold bulkSelect in Hrun.
  apply handleSelectCount_inv in Hrun as
    (allData & st1 & evs1 & Hdata & HA & Hstore & Hcache & _); [|done].
  simpl in Hstore. exists allData, st1, evs1.
  split; [done|]. split.
  { rewrite Hcache. destruct HA; simpl; auto. }
  rewrite Hstore. split; [|split].
  - intros i r Hi Hr. apply putAll_present.
    apply list_elem_of_lookup. exists i.
    rewrite lookup_take_lt by lia. done.
  - intros k. apply putAll_keeps.
  - intros k. apply lookup_putAll_notin.
Qed.

Lemma bulkSelect_adds_first_n_witness :
  0 < 3 ∧
  ∃ st' evs,
    bulkSelect Sample.threePages 4 3 Sample.onPage1 = Some (st', evs) ∧
    is_Some (persistedSelection st' !! 1) ∧
    is_Some (persistedSelection st' !! 2) ∧
    is_Some (persistedSelection st' !! 3) ∧
    is_Some (persistedSelection st' !! 5).
Proof.
  assert (Hn : 0 < 3) by lia.
  split; [exact Hn|].
  destruct (bulkSelect Sample.threePages 4 3 Sample.onPage1)
    as [[st' evs]|] eqn:Hrun; [|vm_compute in Hrun; discriminate].
  exists st', evs. split; [reflexivity|].
  destruct (bulkSelect_adds_first_n _ _ _ _ _ _ Hn Hrun)
    as (allData & st1 & evs1 & Hdata & _ & Htop & Hkeep & _).
  vm_compute in Hdata. injection Hdata as <- _ _.
  split; [exact (Htop 0%nat Sample.A ltac:(simpl; lia) eq_refl)|].
  split; [exact (Htop 1%nat Sample.B ltac:(simpl; lia) eq_refl)|].
  split; [exact (Htop 2%nat Sample.C ltac:(simpl; lia) eq_refl)|].
  apply Hkeep. vm_compute. eauto.
Defined.

(** The array a second bulk-select of the same count obtains is the array
    the first one obtained. *)
Lemma AllData_again (server : Server) (fuel fuel2 : nat) (s s1 s2 s3 : State)
    (d1 d2 : list Artwork) (e1 e2 : list Event) :
  AllData server fuel s d1 s1 e1 →
  allFetchedArtworks s2 = allFetchedArtworks s1 →
  selectCount s2 = selectCount s →
  AllData server fuel2 s2 d2 s3 e2 →
  d2 = d1.
Proof.
  intros H1 Hcache Hcount H2.
  destruct H1 as [Hlong|r reqs Hshort Hrun|acc reqs Hshort Hrun];
    destruct H2 as [Hlong2|r2 reqs2 Hshort2 Hrun2|acc2 reqs2 Hshort2 Hrun2];
    rewrite ?Hcache, ?Hcount in *; simpl in *; try done.
  - destruct (fetchLoop_deterministic _ _ _ _ _ _ _ _ _ _ _ Hrun Hrun2)
      as [[= ->] _]; done.
  - destruct (fetchLoop_deterministic _ _ _ _ _ _ _ _ _ _ _ Hrun Hrun2)
      as [[=] _]; done.
  - destruct (fetchLoop_deterministic _ _ _ _ _ _ _ _ _ _ _ Hrun Hrun2)
      as [[=] _]; done.
Qed.

(** C7. A bulk-select of a positive [n] issued again right after one that
    returned, against the same remote answers, returns as well and leaves
    the persisted selection exactly as the first one left it. *)
Theorem bulkSelect_twice_same_selection
    (server : Server) (fuel : nat) (n : Z) (st st1 : State)
    (evs1 : list Event) :
  0 < n →
  bulkSelect server fuel n st = Some (st1, evs1) →
  (∃ st2 evs2, bulkSelect server fuel n st1 = Some (st2, evs2)) ∧
  (∀ fuel2 st2 evs2,
      bulkSelect server fuel2 n st1 = Some (st2, evs2) →
      persistedSelection st2 = persistedSelection st1).
Proof.
  intros Hn Hrun1. unfold bulkSelect in *.
  apply handleSelectCount_inv in Hrun1 as
    (d1 & s1 & e1 & Hdata1 & HA1 & Hstore1 & Hcache1 & Hcount1 & _); [|done].
  simpl in Hstore1, Hcount1.
  assert (Hsame : ∀ fuel2 st2 evs2,
    handleSelectCount server fuel2 (setSelectCount n st1) = Some (st2, evs2) →
    persistedSelection st2 = persistedSelection st1).
  { intros fuel2 st2 evs2 Hrun2.
    apply handleSelectCount_inv in Hrun2 as
      (d2 & s2 & e2 & _ & HA2 & Hstore2 & _); [|done].
    simpl in Hstore2.
    assert (d2 = d1) as ->.
    { eapply (AllData_again server fuel fuel2); [exact HA1| | |exact HA2];
        simpl; done. }
    by rewrite Hstore2, Hstore1, putAll_idemp. }
  split; [|exact Hsame].
  unfold handleSelectCount at 1. simpl. rewrite decide_False by lia.
  assert (is_Some (allDataFor server fuel (setSelectCount n st1)))
    as [[[d2 s2] e2] ->]; [|by eexists _, _].
  unfold allDataFor, fetchAllArtworks. simpl.
  case_decide as Hshort; [|by eexists].
  destruct HA1 as [Hlong|r reqs Hshort1 Hloop|acc reqs Hshort1 Hloop];
    simpl in *.
  - rewrite Hcache1 in Hshort. lia.
  - rewrite Hloop. by eexists.
  - rewrite Hloop. by eexists.
Qed.

Lemma bulkSelect_twice_same_selection_witness :
  0 < 3 ∧
  ∃ st1 evs1 st2 evs2,
    bulkSelect Sample.threePages 4 3 Sample.onPage1 = Some (st1, evs1) ∧
    bulkSelect Sample.threePages 4 3 st1 = Some (st2, evs2) ∧
    persistedSelection st2 = persistedSelection st1.
Proof.
  assert (Hn : 0 < 3) by lia.
  split; [exact Hn|].
  destruct (bulkSelect Sample.threePages 4 3 Sample.onPage1)
    as [[st1 evs1]|] eqn:Hrun; [|vm_compute in Hrun; discriminate].
  destruct (bulkSelect_twice_same_selection _ _ _ _ _ _ Hn Hrun)
    as [(st2 & evs2 & Hrun2) Hsame].
  exists st1, evs1, st2, evs2.
  split; [reflexivity|]. split; [exact Hrun2|].
  exact (Hsame _ _ _ Hrun2).
Defined.

(** ** The fetched cache over a session *)

Lemma allFetchedArtworks_onPageChange server eventPage st :
  allFetchedArtworks (onPageChange server eventPage st).1
  = allFetchedArtworks st.
Proof.
  unfold onPageChange, loadPage, fetchArtworks.
  case_decide; [done|]. by destruct (server _).
Qed.

Lemma fetchLoop_first_request server n fuel seen p out reqs :
  0 < n →
  fetchLoop server n fuel [] seen p = (out, reqs) →
  out ≠ Unfinished →
  ∃ reqs', reqs = p :: reqs'.
Proof.
  intros Hn. destruct fuel as [|fuel]; simpl; [by intros [= <- <-]|].
  rewrite decide_True by done.
  destruct (server p) as [res|]; [|intros [= <- <-]; eauto].
  case_decide; [intros [= <- <-]; eauto|].
  destruct (fetchLoop _ _ _ _ _ _). intros [= <- <-]. eauto.
Qed.

Lemma act_cache server a st st' evs :
  fromSource server (allFetchedArtworks st) →
  act server a st = Some (st', evs) →
  fromSource server (allFetchedArtworks st') ∧
  allFetchedArtworks st `prefix_of` allFetchedArtworks st' ∧
  (∀ n fuel, a = BulkSelect n fuel → 0 < n →
             Z.of_nat (length (allFetchedArtworks st)) < n →
             ∃ evs', evs = Fetch 1 :: evs').
Proof.
  intros Hfrom. destruct a as [n fuel|ns|e]; simpl.
  - intros Hrun. destruct (decide (n <= 0)) as [Hn|Hn].
    { unfold bulkSelect, handleSelectCount in Hrun. simpl in Hrun.
      rewrite decide_True in Hrun by done. injection Hrun as <- <-.
      split; [done|]. split; [done|]. intros ? ? [= <- <-]. lia. }
    assert (Hpos : 0 < n) by lia.
    unfold bulkSelect in Hrun.
    apply handleSelectCount_inv in Hrun as
      (d & s1 & e1 & _ & HA & _ & -> & _ & _ & _ & ->); [|simpl; lia].
    destruct HA as [Hlong|r reqs Hshort Hloop|acc reqs Hshort Hloop];
      simpl in *.
    + split; [done|]. split; [done|]. intros ? ? [= <- <-]. lia.
    + split; [right; by exists n, fuel, reqs|].
      split.
      * destruct Hfrom as [->|(n1 & fuel1 & reqs1 & Hloop1)];
          [apply prefix_nil|].
        eapply fetchLoop_prefix; eauto.
      * intros ? ? [= <- <-] _ _.
        destruct (fetchLoop_first_request _ _ _ _ _ _ _ Hpos Hloop)
          as [reqs' ->]; [done|]. simpl. eauto.
    + split; [done|]. split; [done|].
      intros ? ? [= <- <-] _ _.
      destruct (fetchLoop_first_request _ _ _ _ _ _ _ Hpos Hloop)
        as [reqs' ->]; [done|]. simpl. eauto.
  - intros [= <- <-]. simpl. split; [done|]. split; [done|]. discriminate.
  - intros Hrun.
    assert (st' = (onPageChange server e st).1) as ->.
    { by destruct (onPageChange server e st); injection Hrun as <- <-. }
    rewrite allFetchedArtworks_onPageChange.
    split; [done|]. split; [done|]. discriminate.
Qed.

Lemma session_cache server acts st st' :
  fromSource server (allFetchedArtworks st) →
  session server acts st = Some st' →
  fromSource server (allFetchedArtworks st') ∧
  allFetchedArtworks st `prefix_of` allFetchedArtworks st'.
Proof.
  revert st. induction acts as [|a acts IH]; intros st Hfrom; simpl.
  { by intros [= <-]. }
  destruct (act server a st) as [[st1 evs]|] eqn:Hact; [|done].
  intros Hrest.
  destruct (act_cache _ _ _ _ _ Hfrom Hact) as (Hfrom1 & Hpre1 & _).
  destruct (IH _ Hfrom1 Hrest) as [Hfrom' Hpre'].
  split; [done|]. by etrans.
Qed.

Lemma fromSource_NoDup server c :
  (∀ reqs, pagesDistinct server reqs) →
  fromSource server c → NoDup (id <$> c).
Proof.
  intros Hd [->|(n & fuel & reqs & Hloop)]; [constructor|].
  rewrite (fetchLoop_firstArrivals _ _ _ _ _ _ _ _ _ Hloop
             (or_introl eq_refl) (Hd reqs)).
  apply firstArrivals_NoDup.
Qed.

(** C6, as stated, fails.  Against one and the same source, a bulk-select
    for more rows than the cache holds asks for page 1 again, whose rows are
    all in the cache already; and when the source has changed in between,
    the rebuilt cache need not contain the rows cached before. *)
Lemma bulkSelect_refetches_cached_rows :
  ∃ st1 evs1 st2 evs2 st2' evs2',
    bulkSelect Sample.threePages 4 2 initialState = Some (st1, evs1) ∧
    allFetchedArtworks st1 = [Sample.A; Sample.B] ∧
    bulkSelect Sample.threePages 4 3 st1 = Some (st2, evs2) ∧
    Fetch 1 ∈ evs2 ∧
    Sample.threePages 1 = Sample.more [Sample.A; Sample.B] 1 ∧
    bulkSelect Moved.server 4 3 st1 = Some (st2', evs2') ∧
    allFetchedArtworks st2' = [Sample.C; Sample.D; Sample.E] ∧
    ¬ allFetchedArtworks st1 `prefix_of` allFetchedArtworks st2'.
Proof.
  destruct (bulkSelect Sample.threePages 4 2 initialState)
    as [[st1 evs1]|] eqn:H1; vm_compute in H1; [|discriminate].
  injection H1 as <- <-.
  eexists _, _, _, _, _, _.
  split; [reflexivity|]. split; [reflexivity|].
  split; [vm_compute; reflexivity|].
  split; [apply list_elem_of_here|].
  split; [reflexivity|].
  split; [vm_compute; reflexivity|].
  split; [reflexivity|].
  intros [k Hk]. discriminate.
Qed.

(** C6 (amended). In a session that starts with an empty cache and runs
    against a source answering each page the same way every time, every
    action leaves the rows cached before it in place, as a prefix of the
    cache after it, and the cache carries each key once when no page lists a
    key twice.  A bulk-select for more rows than the cache holds does not
    continue from the cache: its first request is for page 1 again. *)
Theorem session_cache_grows
    (server : Server) (acts : list Action) (a : Action)
    (st0 st1 st2 : State) (evs : list Event) :
  allFetchedArtworks st0 = [] →
  session server acts st0 = Some st1 →
  act server a st1 = Some (st2, evs) →
  allFetchedArtworks st1 `prefix_of` allFetchedArtworks st2 ∧
  ((∀ reqs, pagesDistinct server reqs) →
   NoDup (id <$> allFetchedArtworks st2)) ∧
  (∀ n fuel, a = BulkSelect n fuel → 0 < n →
             Z.of_nat (length (allFetchedArtworks st1)) < n →
             ∃ evs', evs = Fetch 1 :: evs').
Proof.
  intros Hempty Hsession Hact.
  assert (Hfrom0 : fromSource server (allFetchedArtworks st0)) by by left.
  destruct (session_cache _ _ _ _ Hfrom0 Hsession) as [Hfrom1 _].
  destruct (act_cache _ _ _ _ _ Hfrom1 Hact) as (Hfrom2 & Hpre & Hreq).
  split; [done|]. split; [|done].
  intros Hd. by eapply fromSource_NoDup.
Qed.

Lemma session_cache_grows_witness :
  allFetchedArtworks initialState = [] ∧
  ∃ st1 st2 evs,
    session Sample.threePages [BulkSelect 2 4; PageChange 1] initialState
      = Some st1 ∧
    act Sample.threePages (BulkSelect 3 4) st1 = Some (st2, evs) ∧
    allFetchedArtworks st1 = [Sample.A; Sample.B] ∧
    allFetchedArtworks st2 = [Sample.A; Sample.B; Sample.C] ∧
    allFetchedArtworks st1 `prefix_of` allFetchedArtworks st2 ∧
    NoDup (id <$> allFetchedArtworks st2) ∧
    ∃ evs', evs = Fetch 1 :: evs'.
Proof.
  split; [reflexivity|].
  destruct (session Sample.threePages [BulkSelect 2 4; PageChange 1]
              initialState) as [st1|] eqn:Hs;
    [|vm_compute in Hs; discriminate].
  destruct (act Sample.threePages (BulkSelect 3 4) st1)
    as [[st2 evs]|] eqn:Ha.
  2:{ vm_compute in Hs. injection Hs as <-. vm_compute in Ha. discriminate. }
  exists st1, st2, evs.
  destruct (session_cache_grows Sample.threePages
              [BulkSelect 2 4; PageChange 1] (BulkSelect 3 4)
              initialState st1 st2 evs eq_refl Hs Ha) as (Hpre & Hnd & Hreq).
  split; [reflexivity|]. split; [exact Ha|].
  assert (Hc1 : allFetchedArtworks st1 = [Sample.A; Sample.B]).
  { vm_compute in Hs. by injection Hs as <-. }
  assert (Hc2 : allFetchedArtworks st2 = [Sample.A; Sample.B; Sample.C]).
  { vm_compute in Hs. injection Hs as <-. vm_compute in Ha.
    by injection Ha as <- _. }
  split; [exact Hc1|]. split; [exact Hc2|].
  split; [exact Hpre|].
  split; [exact (Hnd pagesDistinct_threePages)|].
  apply (Hreq 3 4%nat eq_refl); [lia|]. rewrite Hc1. simpl. lia.
Defined.

(** ** How a run of the fetch loop proceeds and ends *)

(** The loop asks for consecutive pages, starting at the page it was
    entered with: it never skips a page and never asks for one twice. *)
Theorem fetchLoop_requests_consecutive
    (server : Server) (n : Z) (fuel : nat) (fetched : list Artwork)
    (seen : gset Z) (p : Z) (out : LoopOutcome) (reqs : list Z) :
  fetchLoop server n fuel fetched seen p = (out, reqs) →
  reqs = seqZ p (Z.of_nat (length reqs)).
Proof.
  revert fetched seen p out reqs.
  induction fuel as [|fuel IH]; intros fetched seen p out reqs; simpl.
  { by intros [= <- <-]. }
  case_decide; [|by intros [= <- <-]].
  destruct (server p) as [res|]; [|by intros [= <- <-]].
  case_decide; [by intros [= <- <-]|].
  destruct (fetchLoop _ _ _ _ _ _) as [out' reqs'] eqn:Hrec.
  intros [= <- <-]. apply IH in Hrec.
  rewrite seqZ_cons by (simpl; lia). f_equal.
  rewrite Hrec at 1. f_equal; simpl; lia.
Qed.

(** A run that ended, seen from its last request. *)
Lemma fetchLoop_last_request
    (server : Server) (n : Z) (fuel : nat) (fetched : list Artwork)
    (seen : gset Z) (p : Z) (out : LoopOutcome) (reqs : list Z) :
  fetchLoop server n fuel fetched seen p = (out, reqs) →
  match out with
  | Unfinished => True
  | Finished r =>
      (reqs = [] ∧ r = fetched ∧ n <= Z.of_nat (length r)) ∨
      (∃ reqs' q res,
          reqs = reqs' ++ [q] ∧ server q = Some res ∧
          Z.of_nat (length r) < n + Z.of_nat (length (data res)) ∧
          (n <= Z.of_nat (length r) ∨
           current_page (pagination res) >= total_pages (pagination res)) ∧
          (∀ q', q' ∈ reqs' →
                 ∃ res', server q' = Some res' ∧
                         ¬ current_page (pagination res')
                           >= total_pages (pagination res')))
  | Threw acc =>
      ∃ reqs' q,
        reqs = reqs' ++ [q] ∧ server q = None ∧
        Z.of_nat (length acc) < n ∧ fetched `prefix_of` acc ∧
        (∀ q', q' ∈ reqs' →
               ∃ res', server q' = Some res' ∧
                       ¬ current_page (pagination res')
                         >= total_pages (pagination res'))
  end.
Proof.
  revert fetched seen p out reqs.
  induction fuel as [|fuel IH]; intros fetched seen p out reqs; simpl.
  { by intros [= <- <-]. }
  case_decide as Hlen.
  2:{ intros [= <- <-]. left. repeat split; [done..|lia]. }
  destruct (server p) as [res|] eqn:Hres.
  2:{ intros [= <- <-]. exists [], p. repeat split; try done.
      by intros ? ?%elem_of_nil. }
  assert (Hfilter : (length (filter (λ item, id item ∉ seen) (data res))
                     ≤ length (data res))%nat) by apply length_filter.
  case_decide as Hlast.
  { intros [= <- <-]. right. exists [], p, res.
    rewrite length_app. repeat split; try done; [lia|by right|].
    by intros ? ?%elem_of_nil. }
  destruct (fetchLoop _ _ _ _ _ _) as [out' reqs'] eqn:Hrec.
  intros [= <- <-]. apply IH in Hrec.
  assert (Hhere : ∀ rs q', q' ∈ p :: rs →
            (∀ q', q' ∈ rs →
                   ∃ res', server q' = Some res' ∧
                           ¬ current_page (pagination res')
                             >= total_pages (pagination res')) →
            ∃ res', server q' = Some res' ∧
                    ¬ current_page (pagination res')
                      >= total_pages (pagination res')).
  { intros rs q' [->|Hq]%elem_of_cons Hrs; [eauto|auto]. }
  destruct out' as [r|acc|]; [| |done].
  - right. destruct Hrec as [(-> & -> & Hn)|(rs & q & res' & -> & ? & ? & ? & Hrs)].
    + exists [], p, res. rewrite length_app in *.
      repeat split; try done; [lia|by left|].
      by intros ? ?%elem_of_nil.
    + exists (p :: rs), q, res'. repeat split; try done. eauto.
  - destruct Hrec as (rs & q & -> & ? & ? & Hpre & Hrs).
    exists (p :: rs), q. repeat split; try done; [|eauto].
    etrans; [|exact Hpre]. by apply prefix_app_r.
Qed.

(** A run returns fewer rows than were asked for only when the answer to
    its last request said the collection is exhausted. *)
Theorem fetchLoop_short_only_when_exhausted
    (server : Server) (n : Z) (fuel : nat) (r : list Artwork)
    (reqs : list Z) :
  fetchLoop server n fuel [] ∅ 1 = (Finished r, reqs) →
  Z.of_nat (length r) < n →
  ∃ reqs' q res,
    reqs = reqs' ++ [q] ∧ server q = Some res ∧
    current_page (pagination res) >= total_pages (pagination res).
Proof.
  intros Hrun Hshort.
  destruct (fetchLoop_last_request _ _ _ _ _ _ _ _ Hrun)
    as [(_ & _ & ?)|(rs & q & res & -> & Hq & _ & [?|Hlast] & _)]; [lia|lia|].
  by exists rs, q, res.
Qed.

Lemma fetchLoop_short_only_when_exhausted_witness :
  fetchLoop Sample.threePages 10 4 [] ∅ 1
    = (Finished Sample.firstFive, [1; 2; 3]) ∧
  Z.of_nat (length Sample.firstFive) < 10 ∧
  ∃ reqs' q res,
    [1; 2; 3] = reqs' ++ [q] ∧ Sample.threePages q = Some res ∧
    current_page (pagination res) >= total_pages (pagination res).
Proof.
  assert (H : Z.of_nat (length Sample.firstFive) < 10) by (simpl; lia).
  split; [reflexivity|]. split; [exact H|].
  exact (fetchLoop_short_only_when_exhausted Sample.threePages 10 4
           Sample.firstFive [1; 2; 3] eq_refl H).
Defined.

(** The loop stops asking as soon as it holds enough: what it returns
    exceeds the requested count by less than the size of the last page it
    received. *)
Theorem fetchLoop_overshoots_by_less_than_a_page
    (server : Server) (n : Z) (fuel : nat) (r : list Artwork)
    (reqs' : list Z) (q : Z) :
  fetchLoop server n fuel [] ∅ 1 = (Finished r, reqs' ++ [q]) →
  ∃ res, server q = Some res ∧
         Z.of_nat (length r) < n + Z.of_nat (length (data res)).
Proof.
  intros Hrun.
  destruct (fetchLoop_last_request _ _ _ _ _ _ _ _ Hrun)
    as [(Hnil & _)|(rs & q' & res & Heq & Hq & Hlen & _)].
  { by destruct reqs'. }
  apply app_inj_tail in Heq as [_ ->]. eauto.
Qed.

Lemma fetchLoop_overshoots_by_less_than_a_page_witness :
  fetchLoop Sample.threePages 1 4 [] ∅ 1
    = (Finished [Sample.A; Sample.B], [] ++ [1]) ∧
  ∃ res, Sample.threePages 1 = Some res ∧
         Z.of_nat (length [Sample.A; Sample.B])
         < 1 + Z.of_nat (length (data res)).
Proof.
  split; [reflexivity|].
  exact (fetchLoop_overshoots_by_less_than_a_page Sample.threePages 1 4
           [Sample.A; Sample.B] [] 1 eq_refl).
Defined.

(** A run that ends in a rejected request: the rejected request is the last
    one, it was made while fewer rows than asked for were held, and every
    request before it was answered with a page that was not the last. *)
Theorem fetchLoop_threw_at_last_request
    (server : Server) (n : Z) (fuel : nat) (acc : list Artwork)
    (reqs : list Z) :
  fetchLoop server n fuel [] ∅ 1 = (Threw acc, reqs) →
  ∃ reqs' q,
    reqs = reqs' ++ [q] ∧ server q = None ∧
    Z.of_nat (length acc) < n ∧
    (∀ q', q' ∈ reqs' →
           ∃ res', server q' = Some res' ∧
                   ¬ current_page (pagination res')
                     >= total_pages (pagination res')).
Proof.
  intros Hrun.
  destruct (fetchLoop_last_request _ _ _ _ _ _ _ _ Hrun)
    as (rs & q & -> & Hq & Hlen & _ & Hrs).
  by exists rs, q.
Qed.

Lemma fetchLoop_threw_at_last_request_witness :
  fetchLoop Sample.failsOnPage2 5 3 [] ∅ 1
    = (Threw [Sample.A; Sample.B], [1; 2]) ∧
  ∃ reqs' q,
    [1; 2] = reqs' ++ [q] ∧ Sample.failsOnPage2 q = None ∧
    Z.of_nat (length [Sample.A; Sample.B]) < 5 ∧
    (∀ q', q' ∈ reqs' →
           ∃ res', Sample.failsOnPage2 q' = Some res' ∧
                   ¬ current_page (pagination res')
                     >= total_pages (pagination res')).
Proof.
  split; [reflexivity|].
  exact (fetchLoop_threw_at_last_request Sample.failsOnPage2 5 3
           [Sample.A; Sample.B] [1; 2] eq_refl).
Defined.

(** ** More on the keyed object *)

Lemma lastWith_cases (k : Z) (l : list Artwork) (o : option Artwork) :
  ((k ∉ id <$> l) ∧ lastWith k l o = o) ∨
  (∃ a, a ∈ l ∧ id a = k ∧ lastWith k l o = Some a).
Proof.
  induction l as [|a l IH] using rev_ind.
  { left. split; [apply not_elem_of_nil|done]. }
  unfold lastWith in *. rewrite foldl_app, fmap_app. simpl.
  case_decide as Ha.
  - right. exists a. split; [|done]. apply elem_of_app. right.
    apply list_elem_of_here.
  - destruct IH as [[Hk ->]|(b & Hb & Hid & ->)].
    + left. split; [|done]. rewrite not_elem_of_app. split; [done|].
      intros ?%list_elem_of_singleton. done.
    + right. exists b. split; [|done]. apply elem_of_app. by left.
Qed.

Lemma lookup_putAll_NoDup (l : list Artwork) (m : gmap Z Artwork)
    (r : Artwork) :
  NoDup (id <$> l) → r ∈ l → putAll l m !! id r = Some r.
Proof.
  intros Hnd Hr. rewrite lookup_putAll.
  destruct (lastWith_cases (id r) l (m !! id r))
    as [[Hk _]|(a & Ha & Hid & ->)].
  - exfalso. apply Hk. by apply list_elem_of_fmap_2.
  - f_equal. by eapply same_id_same_row.
Qed.

Lemma size_putAll_bounds (l : list Artwork) (m : gmap Z Artwork) :
  (size m ≤ size (putAll l m) ≤ size m + length l)%nat.
Proof.
  induction l as [|a l IH] using rev_ind; [rewrite putAll_nil; simpl; lia|].
  rewrite putAll_snoc, length_app. simpl.
  destruct (putAll l m !! id a) eqn:Ha.
  - rewrite map_size_insert_Some by eauto. lia.
  - rewrite map_size_insert_None by done. lia.
Qed.

Lemma size_putAll_fresh (l : list Artwork) (m : gmap Z Artwork) :
  NoDup (id <$> l) →
  (∀ a, a ∈ l → m !! id a = None) →
  size (putAll l m) = (size m + length l)%nat.
Proof.
  induction l as [|a l IH] using rev_ind; [rewrite putAll_nil; simpl; lia|].
  rewrite fmap_app, NoDup_app. simpl. intros (Hl & Hdisj & _) Hfresh.
  rewrite putAll_snoc, length_app, map_size_insert_None.
  - rewrite IH; [simpl; lia|done|].
    intros b Hb. apply Hfresh. apply elem_of_app. by left.
  - rewrite lookup_putAll_notin.
    + apply Hfresh. apply elem_of_app. right. apply list_elem_of_here.
    + intros Hin. apply (Hdisj _ Hin). apply list_elem_of_here.
Qed.

Lemma currentPageSelected_delete (k : Z) (l : list Artwork)
    (m : gmap Z Artwork) :
  k ∉ id <$> l →
  currentPageSelected l (delete k m) = currentPageSelected l m.
Proof.
  induction l as [|a l IH]; [done|].
  rewrite fmap_cons, not_elem_of_cons. intros [Hne Hl].
  unfold currentPageSelected in *. simpl. rewrite IH by done.
  unfold isPersisted. by rewrite lookup_delete_ne.
Qed.

Lemma size_deleteAll (l : list Artwork) (m : gmap Z Artwork) :
  NoDup (id <$> l) →
  (size (deleteAll l m) + length (currentPageSelected l m))%nat = size m.
Proof.
  revert m. induction l as [|a l IH]; intros m; [simpl; lia|].
  rewrite fmap_cons, NoDup_cons. intros [Ha Hl].
  change (deleteAll (a :: l) m) with (deleteAll l (delete (id a) m)).
  specialize (IH (delete (id a) m) Hl).
  rewrite currentPageSelected_delete in IH by done.
  unfold currentPageSelected in *. simpl. unfold isPersisted at 1.
  destruct (m !! id a) as [v|] eqn:Hm.
  - rewrite map_size_delete_Some in IH by eauto.
    rewrite bool_decide_eq_true_2 by eauto. simpl.
    assert (size m ≠ 0)%nat.
    { apply map_size_non_empty_iff. intros ->. by rewrite lookup_empty in Hm. }
    lia.
  - rewrite map_size_delete_None in IH by done.
    rewrite bool_decide_eq_false_2; [done|]. by intros [? ?].
Qed.

Lemma keyedById_putAll (l : list Artwork) (m : gmap Z Artwork) :
  keyedById m → keyedById (putAll l m).
Proof.
  intros Hm k a. rewrite lookup_putAll.
  destruct (lastWith_cases k l (m !! k)) as [[_ ->]|(b & _ & Hid & ->)].
  - apply Hm.
  - by intros [= <-].
Qed.

Lemma keyedById_deleteAll (l : list Artwork) (m : gmap Z Artwork) :
  keyedById m → keyedById (deleteAll l m).
Proof.
  intros Hm k a. destruct (decide (k ∈ id <$> l)).
  - by rewrite lookup_deleteAll_in.
  - rewrite lookup_deleteAll_notin by done. apply Hm.
Qed.

(** ** More on manual selection *)

(** Reporting the same selection a second time changes nothing: the state
    after the second [onSelectionChange] is the state after the first. *)
Theorem onSelectionChange_idempotent
    (newSelection : list Artwork) (st : State) :
  onSelectionChange newSelection (onSelectionChange newSelection st)
  = onSelectionChange newSelection st.
Proof.
  unfold onSelectionChange, setSelectedRows, setPersistedSelection. simpl.
  f_equal. apply map_eq. intros k. rewrite !lookup_putAll.
  destruct (decide (k ∈ id <$> artworks st)).
  - by rewrite !lookup_deleteAll_in.
  - rewrite !lookup_deleteAll_notin by done.
    rewrite lookup_putAll, lookup_deleteAll_notin by done.
    apply lastWith_idemp.
Qed.

(** When the reported rows have pairwise distinct keys, the entry stored
    under the key of a reported row is that very row, whatever was stored
    under the key before and whether or not the row is on the page. *)
Theorem onSelectionChange_stores_reported_row
    (newSelection : list Artwork) (st : State) (r : Artwork) :
  NoDup (id <$> newSelection) →
  r ∈ newSelection →
  persistedSelection (onSelectionChange newSelection st) !! id r = Some r.
Proof. intros Hnd Hr. simpl. by apply lookup_putAll_NoDup. Qed.

Lemma onSelectionChange_stores_reported_row_witness :
  NoDup (id <$> [Sample.B; Sample.C]) ∧
  Sample.C ∈ [Sample.B; Sample.C] ∧
  persistedSelection (onSelectionChange [Sample.B; Sample.C] Sample.onPage1)
    !! id Sample.C = Some Sample.C.
Proof.
  assert (H1 : NoDup (id <$> [Sample.B; Sample.C])).
  { simpl. apply NoDup_cons. split.
    - intros H%list_elem_of_singleton. discriminate.
    - apply NoDup_singleton. }
  assert (H2 : Sample.C ∈ [Sample.B; Sample.C]).
  { apply list_elem_of_further, list_elem_of_here. }
  split; [exact H1|]. split; [exact H2|].
  exact (onSelectionChange_stores_reported_row _ Sample.onPage1 _ H1 H2).
Defined.

(** A row of the current page that the table no longer reports as checked
    is deselected for good: after loading any other page and then a page
    that lists the row again, the row is not checked. *)
Theorem deselected_row_stays_unchecked
    (server server2 : Server) (p p2 : Z) (res : Response) (st : State)
    (newSelection : list Artwork) (x : Artwork) :
  x ∈ artworks st →
  id x ∉ id <$> newSelection →
  server p = Some res →
  let st1 := onSelectionChange newSelection st in
  let st2 := (loadPage server2 p2 st1).1 in
  let st3 := (loadPage server p st2).1 in
  persistedSelection st1 !! id x = None ∧ x ∉ selectedRows st3.
Proof.
  intros Hx Hns Hres st1 st2 st3.
  assert (Hgone : persistedSelection st1 !! id x = None).
  { subst st1. simpl. rewrite lookup_putAll_notin by done.
    apply lookup_deleteAll_in. by apply list_elem_of_fmap_2. }
  split; [done|].
  destruct (loadPage_Some server p st2 res Hres) as [_ Hs3].
  subst st3. rewrite Hs3. rewrite elem_of_currentPageSelected.
  subst st2. rewrite persistedSelection_loadPage, Hgone.
  intros [_ [? ?]]. discriminate.
Qed.

Lemma deselected_row_stays_unchecked_witness :
  Sample.B ∈ artworks Sample.onPage1 ∧
  (id Sample.B ∉ id <$> [Sample.A]) ∧
  let st1 := onSelectionChange [Sample.A] Sample.onPage1 in
  let st2 := (loadPage Sample.threePages 3 st1).1 in
  let st3 := (loadPage Sample.threePages 1 st2).1 in
  persistedSelection st1 !! id Sample.B = None ∧ Sample.B ∉ selectedRows st3.
Proof.
  assert (H1 : Sample.B ∈ artworks Sample.onPage1).
  { simpl. apply list_elem_of_further, list_elem_of_here. }
  assert (H2 : id Sample.B ∉ id <$> [Sample.A]).
  { simpl. intros H%list_elem_of_singleton. discriminate. }
  split; [exact H1|]. split; [exact H2|].
  exact (deselected_row_stays_unchecked Sample.threePages Sample.threePages
           1 3 _ Sample.onPage1 [Sample.A] Sample.B H1 H2 eq_refl).
Defined.



(** The selection counter after a manual change: with distinct keys on the
    page and in the reported rows, the count drops by the page rows that
    were selected before and rises by the rows reported now; [handleSubmit]
    then shows that number and changes nothing. *)
Theorem onSelectionChange_counter
    (newSelection : list Artwork) (st : State) :
  NoDup (id <$> artworks st) →
  NoDup (id <$> newSelection) →
  newSelection ⊆ artworks st →
  let st1 := onSelectionChange newSelection st in
  let before :=
    length (currentPageSelected (artworks st) (persistedSelection st)) in
  (totalSelected st1 + before = totalSelected st + length newSelection)%nat ∧
  handleSubmit st1 =
    (st1, [ToastShow "info" "Selected Artworks"
             (pretty (totalSelected st + length newSelection - before)%nat
              +:+ " rows selected")]).
Proof.
  intros Hpage Hns Hsub st1 before.
  assert (Hcount : (totalSelected st1 + before
                    = totalSelected st + length newSelection)%nat).
  { subst st1 before. unfold totalSelected. simpl.
    rewrite size_putAll_fresh; [|done|].
    - pose proof (size_deleteAll (artworks st) (persistedSelection st) Hpage).
      lia.
    - intros a Ha. apply lookup_deleteAll_in.
      apply list_elem_of_fmap_2. by apply Hsub. }
  split; [done|].
  replace (totalSelected st + length newSelection - before)%nat
    with (totalSelected st1) by lia.
  reflexivity.
Qed.

Lemma onSelectionChange_counter_witness :
  NoDup (id <$> artworks Sample.onPage1) ∧
  NoDup (id <$> [Sample.A]) ∧
  [Sample.A] ⊆ artworks Sample.onPage1 ∧
  (totalSelected (onSelectionChange [Sample.A] Sample.onPage1)
   + length (currentPageSelected (artworks Sample.onPage1)
               (persistedSelection Sample.onPage1))
   = totalSelected Sample.onPage1 + length [Sample.A])%nat.
Proof.
  assert (H1 : NoDup (id <$> artworks Sample.onPage1)).
  { simpl. apply NoDup_cons. split.
    - intros H%list_elem_of_singleton. discriminate.
    - apply NoDup_singleton. }
  assert (H2 : NoDup (id <$> [Sample.A])) by apply NoDup_singleton.
  assert (H3 : [Sample.A] ⊆ artworks Sample.onPage1).
  { intros x Hx. apply list_elem_of_singleton in Hx as ->.
    simpl. apply list_elem_of_here. }
  split; [exact H1|]. split; [exact H2|]. split; [exact H3|].
  exact (proj1 (onSelectionChange_counter [Sample.A] Sample.onPage1
                  H1 H2 H3)).
Defined.

(** ** More on bulk select *)

(** After a bulk-select of a positive count, the checked rows are exactly
    the rows of the page on screen whose key is in the new selection; a
    page row whose key was selected before the call is checked after it. *)
Theorem bulkSelect_checks_page_rows
    (server : Server) (fuel : nat) (n : Z) (st st' : State)
    (evs : list Event) :
  0 < n →
  bulkSelect server fuel n st = Some (st', evs) →
  artworks st' = artworks st ∧
  (∀ a, a ∈ selectedRows st' ↔
        a ∈ artworks st ∧ is_Some (persistedSelection st' !! id a)) ∧
  (∀ a, a ∈ artworks st → is_Some (persistedSelection st !! id a) →
        a ∈ selectedRows st').
Proof.
  intros Hn Hrun. unfold bulkSelect in Hrun.
  apply handleSelectCount_inv in Hrun as
    (d & s1 & e1 & _ & _ & Hstore & _ & _ & Harts & Hrows & _); [|done].
  simpl in *. split; [done|].
  assert (Hiff : ∀ a, a ∈ selectedRows st' ↔
            a ∈ artworks st ∧ is_Some (persistedSelection st' !! id a)).
  { intros a. rewrite Hrows. apply elem_of_currentPageSelected. }
  split; [done|].
  intros a Ha Hsel. apply Hiff. split; [done|].
  rewrite Hstore. by apply putAll_keeps.
Qed.

Lemma bulkSelect_checks_page_rows_witness :
  0 < 1 ∧
  ∃ st' evs,
    bulkSelect Sample.threePages 4 1 Sample.onPage1 = Some (st', evs) ∧
    artworks st' = artworks Sample.onPage1 ∧
    Sample.B ∈ selectedRows st'.
Proof.
  assert (Hn : 0 < 1) by lia.
  split; [exact Hn|].
  destruct (bulkSelect Sample.threePages 4 1 Sample.onPage1)
    as [[st' evs]|] eqn:Hrun; [|vm_compute in Hrun; discriminate].
  exists st', evs. split; [reflexivity|].
  destruct (bulkSelect_checks_page_rows _ _ _ _ _ _ Hn Hrun)
    as (Harts & _ & Hkeep).
  split; [exact Harts|].
  apply Hkeep.
  - simpl. apply list_elem_of_further, list_elem_of_here.
  - vm_compute. eauto.
Defined.

(** The counter after a bulk-select of a positive count [n]: it never
    drops and rises by at most [n]; the closing toast reports the size of
    the whole selection after the call, not [n]. *)
Theorem bulkSelect_counter_bounds
    (server : Server) (fuel : nat) (n : Z) (st st' : State)
    (evs : list Event) :
  0 < n →
  bulkSelect server fuel n st = Some (st', evs) →
  (totalSelected st ≤ totalSelected st' ≤ totalSelected st + Z.to_nat n)%nat ∧
  last evs = Some (selectionUpdatedToast (persistedSelection st')).
Proof.
  intros Hn Hrun. unfold bulkSelect in Hrun.
  apply handleSelectCount_inv in Hrun as
    (d & s1 & e1 & _ & _ & Hstore & _ & _ & _ & _ & ->); [|done].
  simpl in *. split.
  - unfold totalSelected. rewrite Hstore.
    pose proof (size_putAll_bounds (take (Z.to_nat n) d)
                  (persistedSelection st)) as Hb.
    rewrite length_take in Hb. lia.
  - by rewrite last_app.
Qed.

Lemma bulkSelect_counter_bounds_witness :
  0 < 3 ∧
  ∃ st' evs,
    bulkSelect Sample.threePages 4 3 Sample.onPage1 = Some (st', evs) ∧
    (totalSelected Sample.onPage1 ≤ totalSelected st'
     ≤ totalSelected Sample.onPage1 + Z.to_nat 3)%nat ∧
    last evs = Some (selectionUpdatedToast (persistedSelection st')).
Proof.
  assert (Hn : 0 < 3) by lia.
  split; [exact Hn|].
  destruct (bulkSelect Sample.threePages 4 3 Sample.onPage1)
    as [[st' evs]|] eqn:Hrun; [|vm_compute in Hrun; discriminate].
  exists st', evs. split; [reflexivity|].
  exact (bulkSelect_counter_bounds _ _ _ _ _ _ Hn Hrun).
Defined.

(** The first bulk-select of a session (nothing selected, nothing cached),
    against a source none of whose pages lists a key twice, selects exactly
    as many rows as asked for, or all the rows it fetched when those are
    fewer; after a rejected request that number is zero. *)
Theorem bulkSelect_first_selects_exactly
    (server : Server) (fuel : nat) (n : Z) (st st' : State)
    (evs : list Event) :
  0 < n →
  persistedSelection st = ∅ →
  allFetchedArtworks st = [] →
  (∀ reqs, pagesDistinct server reqs) →
  bulkSelect server fuel n st = Some (st', evs) →
  totalSelected st' = (Z.to_nat n `min` length (allFetchedArtworks st'))%nat.
Proof.
  intros Hn Hempty Hcache Hd Hrun. unfold bulkSelect in Hrun.
  apply handleSelectCount_inv in Hrun as
    (d & s1 & e1 & _ & HA & Hstore & Hc & _); [|done].
  simpl in *. unfold totalSelected. rewrite Hstore, Hempty, Hc.
  destruct HA as [Hlong|r reqs Hshort Hloop|acc reqs Hshort Hloop];
    simpl in *.
  - rewrite Hcache in Hlong. simpl in Hlong. lia.
  - assert (Hnd : NoDup (id <$> r)).
    { rewrite (fetchLoop_firstArrivals _ _ _ _ _ _ _ _ _ Hloop
                 (or_introl eq_refl) (Hd reqs)).
      apply firstArrivals_NoDup. }
    rewrite size_putAll_fresh.
    + rewrite map_size_empty, length_take. lia.
    + rewrite fmap_take. eapply sublist_NoDup; [done|apply sublist_take].
    + intros. apply lookup_empty.
  - rewrite take_nil, putAll_nil, map_size_empty, Hcache. simpl. lia.
Qed.

(** Ten rows asked for, five in the whole collection: five selected. *)
Lemma bulkSelect_first_selects_exactly_witness :
  0 < 10 ∧
  ∃ st' evs,
    bulkSelect Sample.threePages 4 10 initialState = Some (st', evs) ∧
    allFetchedArtworks st' = Sample.firstFive ∧
    totalSelected st' = 5%nat.
Proof.
  assert (Hn : 0 < 10) by lia.
  split; [exact Hn|].
  destruct (bulkSelect Sample.threePages 4 10 initialState)
    as [[st' evs]|] eqn:Hrun; [|vm_compute in Hrun; discriminate].
  exists st', evs. split; [reflexivity|].
  pose proof (bulkSelect_first_selects_exactly Sample.threePages 4 10
                initialState st' evs Hn eq_refl eq_refl
                pagesDistinct_threePages Hrun) as Hsize.
  assert (Hc : allFetchedArtworks st' = Sample.firstFive).
  { vm_compute in Hrun. by injection Hrun as <- _. }
  split; [exact Hc|]. rewrite Hsize, Hc. reflexivity.
Defined.

(** Page 3 is the last one: fuel 3 is enough, however many rows are asked
    for. *)
Lemma handleSelectCount_returns_witness :
  stopsAt Sample.threePages (1 + Z.of_nat 2) ∧
  is_Some (handleSelectCount Sample.threePages 3
             (setSelectCount 100 initialState)).
Proof.
  assert (H : stopsAt Sample.threePages (1 + Z.of_nat 2)).
  { unfold stopsAt. simpl. lia. }
  split; [exact H|].
  exact (handleSelectCount_returns Sample.threePages
           (setSelectCount 100 initialState) 2 H).
Defined.

(** Against a source that keeps answering with empty pages that are not
    the last, the loop never ends: no amount of fuel lets a run that still
    needs rows finish. *)
Theorem fetchLoop_spins_on_empty_pages
    (server : Server) (n : Z) (fuel : nat) (fetched : list Artwork)
    (seen : gset Z) (p : Z) :
  (∀ q, ∃ res, server q = Some res ∧ data res = [] ∧
               ¬ current_page (pagination res)
                 >= total_pages (pagination res)) →
  Z.of_nat (length fetched) < n →
  (fetchLoop server n fuel fetched seen p).1 = Unfinished.
Proof.
  intros Hsrv. revert fetched seen p.
  induction fuel as [|fuel IH]; intros fetched seen p Hlen; [done|].
  simpl. rewrite decide_True by done.
  destruct (Hsrv p) as (res & -> & Hdata & Hmore).
  rewrite decide_False by done. rewrite Hdata, filter_nil, app_nil_r.
  specialize (IH fetched (addIds [] seen) (p + 1) Hlen).
  by destruct (fetchLoop _ _ _ _ _ _).
Qed.

Lemma fetchLoop_spins_on_empty_pages_witness :
  Z.of_nat (length ([] : list Artwork)) < 1 ∧
  (fetchLoop Endless.server 1 50 [] ∅ 1).1 = Unfinished.
Proof.
  assert (H : Z.of_nat (length ([] : list Artwork)) < 1) by (simpl; lia).
  split; [exact H|].
  apply (fetchLoop_spins_on_empty_pages Endless.server 1 50 [] ∅ 1); [|exact H].
  intros q. eexists. split; [reflexivity|]. split; [reflexivity|].
  simpl. lia.
Defined.

(** ** Navigation *)

Lemma frame_onPageChange server eventPage st :
  persistedSelection (onPageChange server eventPage st).1
    = persistedSelection st ∧
  allFetchedArtworks (onPageChange server eventPage st).1
    = allFetchedArtworks st ∧
  selectCount (onPageChange server eventPage st).1 = selectCount st.
Proof.
  unfold onPageChange, loadPage, fetchArtworks.
  case_decide; [done|]. by destruct (server _).
Qed.

(** No run of paginator events, whatever the source answers and whether or
    not requests reject, changes the persisted selection, the fetched cache
    or the bulk-select count. *)
Theorem navigate_keeps_selection
    (moves : list (Server * Z)) (st : State) :
  persistedSelection (navigate moves st) = persistedSelection st ∧
  allFetchedArtworks (navigate moves st) = allFetchedArtworks st ∧
  selectCount (navigate moves st) = selectCount st.
Proof.
  revert st. induction moves as [|[server e] moves IH]; intros st; [done|].
  simpl. destruct (IH (onPageChange server e st).1) as (-> & -> & ->).
  apply frame_onPageChange.
Qed.

(** A page change whose request rejects: the page number has moved on, but
    the rows on screen, their checked state, the total and the selection
    are those of the page left behind; the error is logged. *)
Theorem onPageChange_rejected_keeps_rows
    (server : Server) (eventPage : Z) (st : State) :
  page st ≠ eventPage + 1 →
  server (eventPage + 1) = None →
  let after := (onPageChange server eventPage st).1 in
  page after = eventPage + 1 ∧
  artworks after = artworks st ∧
  selectedRows after = selectedRows st ∧
  totalRecords after = totalRecords st ∧
  persistedSelection after = persistedSelection st ∧
  loading after = false ∧
  (onPageChange server eventPage st).2 =
    [Fetch (eventPage + 1); ConsoleError "Error fetching artworks:"].
Proof.
  intros Hpage Hsrv. unfold onPageChange, loadPage, fetchArtworks.
  rewrite decide_False by done. by rewrite Hsrv.
Qed.

Lemma onPageChange_rejected_keeps_rows_witness :
  page Sample.onPage1 ≠ 3 + 1 ∧
  Sample.threePages (3 + 1) = None ∧
  let after := (onPageChange Sample.threePages 3 Sample.onPage1).1 in
  page after = 3 + 1 ∧ artworks after = artworks Sample.onPage1.
Proof.
  assert (H1 : page Sample.onPage1 ≠ 3 + 1) by (simpl; lia).
  assert (H2 : Sample.threePages (3 + 1) = None) by reflexivity.
  split; [exact H1|]. split; [exact H2|].
  destruct (onPageChange_rejected_keeps_rows Sample.threePages 3
              Sample.onPage1 H1 H2) as (Hp & Ha & _).
  split; [exact Hp|exact Ha].
Defined.

(** ** The keys of the selection *)

Lemma act_keyedById server a st st' evs :
  keyedById (persistedSelection st) →
  act server a st = Some (st', evs) →
  keyedById (persistedSelection st').
Proof.
  intros Hk. destruct a as [n fuel|ns|e]; simpl.
  - intros Hrun. destruct (decide (n <= 0)) as [Hn|Hn].
    { unfold bulkSelect, handleSelectCount in Hrun. simpl in Hrun.
      rewrite decide_True in Hrun by done. by injection Hrun as <- <-. }
    unfold bulkSelect in Hrun.
    apply handleSelectCount_inv in Hrun as
      (d & s1 & e1 & _ & _ & -> & _); [|simpl; lia].
    simpl. by apply keyedById_putAll.
  - intros [= <- <-]. simpl. by apply keyedById_putAll, keyedById_deleteAll.
  - intros Hrun.
    assert (st' = (onPageChange server e st).1) as ->.
    { by destruct (onPageChange server e st); injection Hrun as <- <-. }
    by destruct (frame_onPageChange server e st) as (-> & _).
Qed.

(** Throughout a session that starts with nothing selected, every entry of
    the persisted selection is stored under the [id] of its own row. *)
Theorem session_selection_keyed_by_id
    (server : Server) (acts : list Action) (st : State) :
  session server acts initialState = Some st →
  keyedById (persistedSelection st).
Proof.
  assert (Hgen : ∀ st0, keyedById (persistedSelection st0) →
            session server acts st0 = Some st →
            keyedById (persistedSelection st)).
  { induction acts as [|a acts IH]; intros st0 Hk; simpl.
    - by intros [= <-].
    - destruct (act server a st0) as [[st1 evs]|] eqn:Hact; [|done].
      apply IH. by eapply act_keyedById. }
  apply Hgen. intros k a. simpl. by rewrite lookup_empty.
Qed.

Lemma session_selection_keyed_by_id_witness :
  ∃ st,
    session Sample.threePages
      [BulkSelect 3 4; PageChange 1; SelectionChange [Sample.C]] initialState
      = Some st ∧
    keyedById (persistedSelection st).
Proof.
  destruct (session Sample.threePages
              [BulkSelect 3 4; PageChange 1; SelectionChange [Sample.C]]
              initialState) as [st|] eqn:Hs;
    [|vm_compute in Hs; discriminate].
  exists st. split; [reflexivity|].
  exact (session_selection_keyed_by_id Sample.threePages _ st Hs).
Defined.

(** ** What the loop keeps of what it received *)

Lemma elem_of_addIds (l : list Artwork) (seen : gset Z) (k : Z) :
  k ∈ addIds l seen ↔ k ∈ id <$> l ∨ k ∈ seen.
Proof.
  rewrite addIds_spec, elem_of_union, elem_of_list_to_set. done.
Qed.

Lemma fetchLoop_keeps_keys
    (server : Server) (n : Z) (fuel : nat) (fetched : list Artwork)
    (seen : gset Z) (p : Z) (r : list Artwork) (reqs : list Z) :
  fetchLoop server n fuel fetched seen p = (Finished r, reqs) →
  (∀ a, a ∈ r → a ∈ fetched ∨ a ∈ received server reqs) ∧
  (∀ a, a ∈ received server reqs → id a ∈ seen ∨ id a ∈ id <$> r).
Proof.
  revert fetched seen p r reqs.
  induction fuel as [|fuel IH]; intros fetched seen p r reqs; simpl.
  { intros [=]. }
  case_decide as Hlen.
  2:{ intros [= <- <-]. split; [auto|]. by intros a ?%elem_of_nil. }
  destruct (server p) as [res|] eqn:Hres; [|intros [=]].
  assert (Hpage : ∀ a, a ∈ data res →
            id a ∈ seen ∨
            a ∈ filter (λ item, id item ∉ seen) (data res)).
  { intros a Ha. destruct (decide (id a ∈ seen)); [by left|].
    right. by apply list_elem_of_filter. }
  case_decide as Hlast.
  - intros [= <- <-]. rewrite received_cons, Hres. simpl.
    rewrite app_nil_r. split.
    + intros a [?|[_ ?]%list_elem_of_filter]%elem_of_app; auto.
    + intros a Ha. destruct (Hpage a Ha) as [?|Hnew]; [by left|].
      right. apply list_elem_of_fmap_2, elem_of_app. by right.
  - destruct (fetchLoop _ _ _ _ _ _) as [out' reqs'] eqn:Hrec.
    intros [= -> <-].
    pose proof (fetchLoop_extends _ _ _ _ _ _ _ _ Hrec) as [ext ->].
    destruct (IH _ _ _ _ _ Hrec) as [Hfrom Hall].
    rewrite received_cons, Hres. simpl. split.
    + intros a Ha. destruct (Hfrom a Ha) as [Hold|Hlater].
      * apply elem_of_app in Hold as [?|[_ ?]%list_elem_of_filter];
          [by left|].
        right. apply elem_of_app. by left.
      * right. apply elem_of_app. by right.
    + intros a [Ha|Ha]%elem_of_app.
      * destruct (Hpage a Ha) as [?|Hnew]; [by left|].
        right. apply list_elem_of_fmap_2.
        apply elem_of_app. left. apply elem_of_app. by right.
      * destruct (Hall a Ha) as [Hseen|?]; [|by right].
        apply elem_of_addIds in Hseen as [Hnew|?]; [|by left].
        right. rewrite !fmap_app, !elem_of_app. auto.
Qed.

(** Whatever the source sends, duplicates included, a run that finishes
    invents nothing and loses no key: every row it returns was on one of the
    pages it received, and every key on those pages is the key of a row it
    returns. *)
Theorem fetchLoop_returns_received_keys
    (server : Server) (n : Z) (fuel : nat) (r : list Artwork)
    (reqs : list Z) :
  fetchLoop server n fuel [] ∅ 1 = (Finished r, reqs) →
  (∀ a, a ∈ r → a ∈ received server reqs) ∧
  (∀ a, a ∈ received server reqs → id a ∈ id <$> r).
Proof.
  intros Hrun.
  destruct (fetchLoop_keeps_keys _ _ _ _ _ _ _ _ Hrun) as [Hfrom Hall].
  split.
  - intros a Ha. destruct (Hfrom a Ha) as [Hnil|?]; [|done].
    by apply elem_of_nil in Hnil.
  - intros a Ha. destruct (Hall a Ha) as [Hnil|?]; [|done].
    by apply not_elem_of_empty in Hnil.
Qed.

Lemma fetchLoop_returns_received_keys_witness :
  fetchLoop DupPage.server 5 2 [] ∅ 1 = (Finished [Sample.A; Sample.A], [1]) ∧
  (∀ a, a ∈ [Sample.A; Sample.A] → a ∈ received DupPage.server [1]) ∧
  (∀ a, a ∈ received DupPage.server [1] →
        id a ∈ id <$> [Sample.A; Sample.A]).
Proof.
  split; [reflexivity|].
  exact (fetchLoop_returns_received_keys DupPage.server 5 2
           [Sample.A; Sample.A] [1] eq_refl).
Defined.

Lemma fetchLoop_requests_consecutive_witness :
  fetchLoop Sample.threePages 5 4 [] ∅ 1
    = (Finished Sample.firstFive, [1; 2; 3]) ∧
  [1; 2; 3] = seqZ 1 (Z.of_nat (length [1; 2; 3])).
Proof.
  split; [reflexivity|].
  exact (fetchLoop_requests_consecutive Sample.threePages 5 4 [] ∅ 1
           (Finished Sample.firstFive) [1; 2; 3] eq_refl).
Defined.
